(** * english-collector: the analysis endpoint [api/analyze.js]

    A shallow embedding of [src/api/analyze.js]: the JavaScript values the
    endpoint handles (JSON values plus [undefined]), the string processing of
    [parseAIResponse], [JSON.parse], the three provider adapters
    ([callGemini], [callDeepSeek], [callOpenRouter]) against an arbitrary
    network, and the request [handler].

    Strings are sequences of Latin-1 code units ([ascii], 0..255); the
    JavaScript whitespace class restricted to that range is 9..13, 32, 160. *)

From Stdlib Require Import String Ascii ZArith List Bool Lia.
From Stdlib Require Import DecimalString.
Import ListNotations.
Open Scope string_scope.
Set Warnings "-register-all".

(* ------------------------------------------------------------------ *)
(** ** Characters and strings *)

Definition code (c : ascii) : nat := nat_of_ascii c.

Definition chr (n : nat) : ascii := ascii_of_nat n.

(** The double-quote character (code 34). *)
Definition dq : ascii := chr 34.

(** [WhiteSpace] and [LineTerminator] of ECMAScript within 0..255: what
    [String.prototype.trim] removes and what the regex class [\s] matches. *)
Definition is_js_ws (c : ascii) : bool :=
  let n := code c in
  (Nat.leb 9 n && Nat.leb n 13) || Nat.eqb n 32 || Nat.eqb n 160.

(** JSON whitespace: space, tab, line feed, carriage return. *)
Definition is_json_ws (c : ascii) : bool :=
  let n := code c in Nat.eqb n 32 || Nat.eqb n 9 || Nat.eqb n 10 || Nat.eqb n 13.

Fixpoint ltrim (s : string) : string :=
  match s with
  | String c r => if is_js_ws c then ltrim r else s
  | EmptyString => EmptyString
  end.

Fixpoint rev_str (s : string) (acc : string) : string :=
  match s with
  | String c r => rev_str r (String c acc)
  | EmptyString => acc
  end.

Definition rtrim (s : string) : string :=
  rev_str (ltrim (rev_str s EmptyString)) EmptyString.

(** [String.prototype.trim]. *)
Definition trim (s : string) : string := rtrim (ltrim s).

(** Test writing helper: a literal written with apostrophes for the double
    quotes of JSON text. *)
Fixpoint sq (s : string) : string :=
  match s with
  | String c r => String (if Nat.eqb (code c) 39 then dq else c) (sq r)
  | EmptyString => EmptyString
  end.

(* ------------------------------------------------------------------ *)
(** ** JavaScript values

    The values that flow through the endpoint are JSON values (request body,
    provider envelopes, the parsed AI answer) and [undefined]. A JSON number
    is kept as the exact decimal [m * 10^e] written in the text; where the
    program uses it, it stands for the nearest double. An object is
    its list of own properties in creation order, without duplicate keys. *)

Inductive json : Type :=
| JNull
| JBool (b : bool)
| JNum (m : Z) (e : Z)
| JStr (s : string)
| JArr (l : list json)
| JObj (o : list (string * json)).

(** A JavaScript value: [None] is [undefined]. *)
Definition jsval := option json.

Fixpoint lookup (k : string) (o : list (string * json)) : option json :=
  match o with
  | [] => None
  | (k', v) :: t => if String.eqb k k' then Some v else lookup k t
  end.

(** Assignment [o[k] = v] on a plain object: an existing property keeps its
    place, a new one is added last. *)
Fixpoint obj_set (k : string) (v : json) (o : list (string * json))
  : list (string * json) :=
  match o with
  | [] => [(k, v)]
  | (k', v') :: t =>
      if String.eqb k k' then (k, v) :: t else (k', v') :: obj_set k v t
  end.

(** Canonical array index: ["0"] or a decimal without leading zero. *)
Fixpoint digits_val (s : string) (acc : nat) : option nat :=
  match s with
  | EmptyString => Some acc
  | String c r =>
      let n := code c in
      if Nat.leb 48 n && Nat.leb n 57 then digits_val r (acc * 10 + (n - 48))
      else None
  end.

Definition array_index (k : string) : option nat :=
  match k with
  | String c EmptyString => digits_val k 0
  | String c _ => if Nat.eqb (code c) 48 then None else digits_val k 0
  | EmptyString => None
  end.

(** Property read [v[k]] on a value that is neither [null] nor [undefined].
    None of the names the endpoint reads (provider, model, apiKey, prompt,
    error, message, candidates, content, parts, text, choices, translation,
    keywords, word, phonetic, roots, origin, meaning) is inherited from
    [Object.prototype], [Array.prototype] or [String.prototype]; indices read
    array elements and string characters. *)
Definition get (v : json) (k : string) : jsval :=
  match v with
  | JObj o => lookup k o
  | JArr l =>
      match array_index k with
      | Some i => nth_error l i
      | None => None
      end
  | JStr s =>
      match array_index k with
      | Some i =>
          match String.get i s with
          | Some c => Some (JStr (String c EmptyString))
          | None => None
          end
      | None => None
      end
  | _ => None
  end.

(** A decimal [m * 10^e] that rounds to zero as an IEEE double: its
    magnitude is at most half of the least subnormal, [2^-1075]. *)
Definition num_is_zero (m e : Z) : bool :=
  (m =? 0)%Z ||
  ((e <? 0)%Z && (Z.abs m * 2 ^ 1075 <=? 10 ^ (- e))%Z).

(** A decimal that rounds to an infinite double: at least [2^1024 - 2^970]. *)
Definition num_is_infinite (m e : Z) : bool :=
  if (0 <=? e)%Z then (2 ^ 1024 - 2 ^ 970 <=? Z.abs m * 10 ^ e)%Z
  else ((2 ^ 1024 - 2 ^ 970) * 10 ^ (- e) <=? Z.abs m)%Z.

(** JavaScript truthiness ([!v] is [negb (truthy v)]). *)
Definition truthy (v : jsval) : bool :=
  match v with
  | None => false
  | Some JNull => false
  | Some (JBool b) => b
  | Some (JNum m e) => negb (num_is_zero m e)
  | Some (JStr EmptyString) => false
  | Some (JStr _) => true
  | Some (JArr _) => true
  | Some (JObj _) => true
  end.

(** [v || d]. *)
Definition js_or (v : jsval) (d : json) : json :=
  match v with
  | Some x => if truthy v then x else d
  | None => d
  end.

(* ------------------------------------------------------------------ *)
(** ** [ToString] *)

Definition string_of_N (n : N) : string :=
  NilZero.string_of_uint (N.to_uint n).

Fixpoint zeros (n : nat) : string :=
  match n with O => EmptyString | S k => String "0"%char (zeros k) end.

(** Drop the trailing ['0'] characters of a digit string; returns the rest
    and how many were dropped. *)
Definition strip_trailing_zeros (d : string) : string * nat :=
  let fix go (l : list ascii) (n : nat) :=
    match l with
    | c :: t => if Nat.eqb (code c) 48 then go t (S n) else (l, n)
    | [] => ([], n)
    end in
  let '(l, n) := go (rev (list_ascii_of_string d)) O in
  (string_of_list_ascii (rev l), n).

(** Division of [a >= 0] by [b > 0], rounded to the nearest integer, ties
    to the even one. *)
Definition div_round_even (a b : Z) : Z :=
  let q := (a / b)%Z in
  let r := (a mod b)%Z in
  if (2 * r <? b)%Z then q
  else if (b <? 2 * r)%Z then (q + 1)%Z
  else if Z.even q then q else (q + 1)%Z.

(** [floor(log2(a / b))] for [a, b > 0]. *)
Definition floor_log2_q (a b : Z) : Z :=
  let t := (Z.log2 a - Z.log2 b)%Z in
  if (0 <=? t)%Z then (if (a <? b * 2 ^ t)%Z then (t - 1)%Z else t)
  else (if (a * 2 ^ (- t) <? b)%Z then (t - 1)%Z else t).

(** The IEEE double nearest to the positive rational [a / b], as [M * 2^E]
    with [M < 2^53] and [E >= -1074] (round half to even). The callers rule
    out the cases that round to zero or overflow. *)
Definition nearest_double (a b : Z) : Z * Z :=
  let E := Z.max (floor_log2_q a b - 52) (-1074) in
  let M := if (0 <=? E)%Z then div_round_even a (b * 2 ^ E)
           else div_round_even (a * 2 ^ (- E)) b in
  if (M =? 2 ^ 53)%Z then (2 ^ 52, E + 1)%Z else (M, E).

(** Number of decimal digits of [n > 0]. *)
Definition ndigits (n : Z) : Z :=
  Z.of_nat (String.length (string_of_N (Z.to_N n))).

(** [N * 2^A / 10^p] as a fraction [(num, den)]. *)
Definition scaled (N A p : Z) : Z * Z :=
  ((N * 2 ^ Z.max A 0 * 10 ^ Z.max (- p) 0)%Z, (2 ^ Z.max (- A) 0 * 10 ^ Z.max p 0)%Z).

(** Search for the largest [p] such that a multiple [c * 10^p] lies in the
    rounding interval [[lo * 2^A, hi * 2^A]] of the double [x * 2^A] (ends
    included when [incl]); [c] is the multiple closest to the double, ties
    to even. At most 17 digits are ever needed, so from the start given by
    [number_to_string] the search ends within 19 steps. *)
Fixpoint shortest_from (fuel : nat) (p lo hi x A : Z) (incl : bool) : Z * Z :=
  match fuel with
  | O => (0%Z, p)
  | S f =>
      let '(ln, d) := scaled lo A p in
      let '(hn, _) := scaled hi A p in
      let '(xn, _) := scaled x A p in
      let cmin := if incl then (- ((- ln) / d))%Z else (ln / d + 1)%Z in
      let cmax := if incl then (hn / d)%Z else (- ((- hn) / d) - 1)%Z in
      if (cmin <=? cmax)%Z then
        (Z.min cmax (Z.max cmin (div_round_even xn d)), p)
      else shortest_from f (p - 1)%Z lo hi x A incl
  end.

(** The shortest decimal [c * 10^p] that reads back as the double [M * 2^E]
    ([M > 0]), and of those the closest to it: the rounding interval is
    half an ulp on each side, narrower below a power of two, and its ends
    belong to it when [M] is even. Values are counted in units of
    [2^(E-2)]. *)
Definition shortest_decimal (M E : Z) : Z * Z :=
  let lo := if (M =? 2 ^ 52)%Z && (-1074 <? E)%Z then (4 * M - 1)%Z else (4 * M - 2)%Z in
  let hi := (4 * M + 2)%Z in
  let A := (E - 2)%Z in
  let '(hn, hd) := scaled hi A 0 in
  shortest_from 40 (ndigits hn - ndigits hd)%Z lo hi (4 * M)%Z A (Z.even M).

(** The text of the non-zero finite Number [m * 10^e] with [m > 0]
    (ECMAScript 6.1.6.1.20, steps 5 to 12, on [s = m] without its trailing
    zeros). *)
Definition decimal_text (m e : Z) : string :=
  let '(d, z) := strip_trailing_zeros (string_of_N (Z.to_N m)) in
  let k := Z.of_nat (String.length d) in
  let n := (e + Z.of_nat z + k)%Z in
  if (k <=? n)%Z && (n <=? 21)%Z then d ++ zeros (Z.to_nat (n - k))
  else if (0 <? n)%Z && (n <=? 21)%Z then
    substring 0 (Z.to_nat n) d ++ "." ++
    substring (Z.to_nat n) (Z.to_nat (k - n)) d
  else if (-6 <? n)%Z && (n <=? 0)%Z then
    "0." ++ zeros (Z.to_nat (- n)) ++ d
  else
    let x := (n - 1)%Z in
    let esign := if (0 <=? x)%Z then "+" else "-" in
    let mant :=
      if (k =? 1)%Z then d
      else substring 0 1 d ++ "." ++ substring 1 (Z.to_nat (k - 1)) d in
    mant ++ "e" ++ esign ++ string_of_N (Z.to_N (Z.abs x)).

(** [Number::toString] of the double that [JSON.parse] gives for the
    literal [m * 10^e]: the literal is rounded to the nearest double, and
    the double is written with the fewest significant digits that read back
    as it (ECMAScript 6.1.6.1.20; of several such, the closest, ties to
    even, as V8 does). *)
Definition number_to_string (m e : Z) : string :=
  if num_is_zero m e then "0"
  else
    let sign := if (m <? 0)%Z then "-" else EmptyString in
    if num_is_infinite m e then sign ++ "Infinity"
    else
      let '(a, b) := if (0 <=? e)%Z then (Z.abs m * 10 ^ e, 1)%Z
                     else (Z.abs m, 10 ^ (- e))%Z in
      let '(M, E) := nearest_double a b in
      let '(c, p) := shortest_decimal M E in
      sign ++ decimal_text c p.

(** Does [ToString] throw on [v]? An object whose own properties include
    [toString] holds a non-callable value there (JSON values are never
    functions), and its inherited [valueOf] returns the object itself, so
    [ToPrimitive] finds no primitive and throws a [TypeError]; an array is
    converted by [join], which converts its elements other than [null]. *)
Fixpoint tostring_throws (v : json) : bool :=
  match v with
  | JObj o => match lookup "toString" o with Some _ => true | None => false end
  | JArr l => existsb tostring_throws l
  | _ => false
  end.

(** The value of [ToString] on the values of the model ([String(v)],
    [`${v}`], ['' + v]) when it does not throw; arrays are joined with
    commas, [null] elements giving the empty string. *)
Fixpoint json_to_string (v : json) : string :=
  match v with
  | JNull => "null"
  | JBool true => "true"
  | JBool false => "false"
  | JNum m e => number_to_string m e
  | JStr s => s
  | JObj _ => "[object Object]"
  | JArr l =>
      let fix join (l : list json) :=
        match l with
        | [] => EmptyString
        | [x] => match x with JNull => EmptyString | _ => json_to_string x end
        | x :: t =>
            (match x with JNull => EmptyString | _ => json_to_string x end)
              ++ "," ++ join t
        end in
      join l
  end.

Definition js_to_string (v : jsval) : string :=
  match v with None => "undefined" | Some x => json_to_string x end.

(* ------------------------------------------------------------------ *)
(** ** The regular expressions of [parseAIResponse] *)

Definition is_char (c : ascii) (n : nat) : bool := Nat.eqb (code c) n.

(** Case-insensitive match of [c] against the lower-case ASCII letter [l]
    (the [i] flag of a non-unicode regex). *)
Definition ci_char (c : ascii) (l : nat) : bool :=
  Nat.eqb (code c) l || Nat.eqb (code c) (l - 32).

Definition is_tick (c : ascii) : bool := is_char c 96.

(** [s.replace(/^```json\s*/i, '')]. *)
Definition strip_fence_json (s : string) : string :=
  match s with
  | String a (String b (String c (String j (String s' (String o (String n r)))))) =>
      if is_tick a && is_tick b && is_tick c && ci_char j 106 && ci_char s' 115
         && ci_char o 111 && ci_char n 110
      then ltrim r else s
  | _ => s
  end.

(** [s.replace(/^```\s*/i, '')]. *)
Definition strip_fence (s : string) : string :=
  match s with
  | String a (String b (String c r)) =>
      if is_tick a && is_tick b && is_tick c then ltrim r else s
  | _ => s
  end.

(** Does [/\s*```$/] match at the start of [s]: whitespace, then exactly
    three back-ticks at the end. *)
Fixpoint ws_fence_tail (s : string) : bool :=
  String.eqb s "```" ||
  match s with
  | String a r => is_js_ws a && ws_fence_tail r
  | EmptyString => false
  end.

(** [s.replace(/\s*```$/i, '')]: the leftmost position where the pattern
    matches is cut off with everything after it. *)
Fixpoint strip_fence_end (s : string) : string :=
  if ws_fence_tail s then EmptyString
  else match s with
       | String c r => String c (strip_fence_end r)
       | EmptyString => EmptyString
       end.

Definition is_open (c : ascii) : bool := is_char c 123.
Definition is_close (c : ascii) : bool := is_char c 125.

(** Greedy [[\s\S]*\}] after the opening brace: the longest prefix of [s]
    that ends with a closing brace. *)
Fixpoint greedy_close (s : string) : option string :=
  match s with
  | EmptyString => None
  | String c r =>
      match greedy_close r with
      | Some p => Some (String c p)
      | None => if is_close c then Some (String c EmptyString) else None
      end
  end.

(** [s.match(/\{[\s\S]*\}/)], the matched text: the match is tried at each
    position from the left. *)
Fixpoint brace_match (s : string) : option string :=
  match s with
  | EmptyString => None
  | String c r =>
      if is_open c then
        match greedy_close r with
        | Some p => Some (String c p)
        | None => brace_match r
        end
      else brace_match r
  end.

(* ------------------------------------------------------------------ *)
(** ** [JSON.parse] *)

Fixpoint skip_ws (s : string) : string :=
  match s with
  | String c r => if is_json_ws c then skip_ws r else s
  | EmptyString => EmptyString
  end.

Definition hex_val (c : ascii) : option nat :=
  let n := code c in
  if Nat.leb 48 n && Nat.leb n 57 then Some (n - 48)
  else if Nat.leb 97 n && Nat.leb n 102 then Some (n - 87)
  else if Nat.leb 65 n && Nat.leb n 70 then Some (n - 55)
  else None.

(** The one-letter escapes: backslash followed by a double quote, a
    backslash, a slash, or one of the letters b f n r t. *)
Definition simple_escape (e : ascii) : option ascii :=
  let n := code e in
  if Nat.eqb n 34 then Some dq
  else if Nat.eqb n 92 then Some (chr 92)
  else if Nat.eqb n 47 then Some (chr 47)
  else if Nat.eqb n 98 then Some (chr 8)
  else if Nat.eqb n 102 then Some (chr 12)
  else if Nat.eqb n 110 then Some (chr 10)
  else if Nat.eqb n 114 then Some (chr 13)
  else if Nat.eqb n 116 then Some (chr 9)
  else None.

(** The characters of a string literal after its opening quote, up to and
    without the closing quote; returns the decoded text and the rest. Raw
    control characters are rejected; a [\u] escape beyond [00FF] falls
    outside the Latin-1 model and is reported as a failure. *)
Fixpoint parse_str_body (s : string) : option (string * string) :=
  match s with
  | EmptyString => None
  | String c r =>
      if is_char c 34 then Some (EmptyString, r)
      else if is_char c 92 then
        match r with
        | String e r' =>
            match simple_escape e with
            | Some d =>
                match parse_str_body r' with
                | Some (t, rest) => Some (String d t, rest)
                | None => None
                end
            | None =>
                if is_char e 117 then
                  match r' with
                  | String h1 (String h2 (String h3 (String h4 r''))) =>
                      match hex_val h1, hex_val h2, hex_val h3, hex_val h4 with
                      | Some a1, Some a2, Some a3, Some a4 =>
                          let v := ((a1 * 16 + a2) * 16 + a3) * 16 + a4 in
                          if Nat.ltb v 256 then
                            match parse_str_body r'' with
                            | Some (t, rest) => Some (String (chr v) t, rest)
                            | None => None
                            end
                          else None
                      | _, _, _, _ => None
                      end
                  | _ => None
                  end
                else None
            end
        | EmptyString => None
        end
      else if Nat.ltb (code c) 32 then None
      else
        match parse_str_body r with
        | Some (t, rest) => Some (String c t, rest)
        | None => None
        end
  end.

Definition is_digit (c : ascii) : bool := Nat.leb 48 (code c) && Nat.leb (code c) 57.

(** The longest run of decimal digits at the front. *)
Fixpoint span_digits (s : string) : string * string :=
  match s with
  | String c r =>
      if is_digit c then let '(d, rest) := span_digits r in (String c d, rest)
      else (EmptyString, s)
  | EmptyString => (EmptyString, EmptyString)
  end.

Fixpoint digits_Z (d : string) (acc : Z) : Z :=
  match d with
  | String c r => digits_Z r (acc * 10 + Z.of_nat (code c - 48))%Z
  | EmptyString => acc
  end.

(** The fraction part [. digits] if present. *)
Definition lex_frac (s : string) : option (string * string) :=
  match s with
  | String c r =>
      if is_char c 46 then
        match span_digits r with
        | (EmptyString, _) => None
        | (f, rest) => Some (f, rest)
        end
      else Some (EmptyString, s)
  | EmptyString => Some (EmptyString, EmptyString)
  end.

(** The exponent part [(e|E) (+|-)? digits] if present. *)
Definition lex_exp (s : string) : option (Z * string) :=
  match s with
  | String c r =>
      if is_char c 101 || is_char c 69 then
        let '(neg, r1) :=
          match r with
          | String d r' =>
              if is_char d 43 then (false, r')
              else if is_char d 45 then (true, r') else (false, r)
          | EmptyString => (false, r)
          end in
        match span_digits r1 with
        | (EmptyString, _) => None
        | (x, rest) => Some ((if neg then - digits_Z x 0 else digits_Z x 0)%Z, rest)
        end
      else Some (0%Z, s)
  | EmptyString => Some (0%Z, EmptyString)
  end.

(** A number token [-? (0 | [1-9][0-9]* ) frac? exp?]. *)
Definition parse_number (s : string) : option (json * string) :=
  let '(neg, s1) :=
    match s with
    | String c r => if is_char c 45 then (true, r) else (false, s)
    | EmptyString => (false, s)
    end in
  let int :=
    match s1 with
    | String c r =>
        if is_char c 48 then Some (String c EmptyString, r)
        else if is_digit c then
          let '(d, rest) := span_digits r in Some (String c d, rest)
        else None
    | EmptyString => None
    end in
  match int with
  | None => None
  | Some (i, r1) =>
      match lex_frac r1 with
      | None => None
      | Some (f, r2) =>
          match lex_exp r2 with
          | None => None
          | Some (x, r3) =>
              let m := digits_Z (i ++ f) 0 in
              Some (JNum (if neg then - m else m)%Z
                         (x - Z.of_nat (String.length f))%Z, r3)
          end
      end
  end.

(** [s] starts with the literal [w]; returns what follows. *)
Fixpoint after_prefix (w s : string) : option string :=
  match w, s with
  | EmptyString, _ => Some s
  | String a w', String b s' => if Ascii.eqb a b then after_prefix w' s' else None
  | _, _ => None
  end.

(** Recursive descent over the JSON grammar; [fuel] bounds the nesting
    of calls, and [S (length s)] is always enough since each call follows
    a consumed character. A repeated key keeps its first place and its last
    value, as [CreateDataProperty] does. *)
Fixpoint parse_value (fuel : nat) (s : string) {struct fuel}
  : option (json * string) :=
  match fuel with
  | O => None
  | S f =>
      match skip_ws s with
      | EmptyString => None
      | String c r as s0 =>
          if is_open c then
            match skip_ws r with
            | String c' r' as r0 =>
                if is_close c' then Some (JObj [], r') else parse_members f [] r0
            | EmptyString => None
            end
          else if is_char c 91 then
            match skip_ws r with
            | String c' r' as r0 =>
                if is_char c' 93 then Some (JArr [], r') else parse_elements f [] r0
            | EmptyString => None
            end
          else if is_char c 34 then
            match parse_str_body r with
            | Some (t, rest) => Some (JStr t, rest)
            | None => None
            end
          else
            match after_prefix "true" s0 with
            | Some rest => Some (JBool true, rest)
            | None =>
                match after_prefix "false" s0 with
                | Some rest => Some (JBool false, rest)
                | None =>
                    match after_prefix "null" s0 with
                    | Some rest => Some (JNull, rest)
                    | None => parse_number s0
                    end
                end
            end
      end
  end
with parse_members (fuel : nat) (acc : list (string * json)) (s : string)
  {struct fuel} : option (json * string) :=
  match fuel with
  | O => None
  | S f =>
      match s with
      | String c r =>
          if is_char c 34 then
            match parse_str_body r with
            | Some (k, r1) =>
                match skip_ws r1 with
                | String c1 r2 =>
                    if is_char c1 58 then
                      match parse_value f r2 with
                      | Some (v, r3) =>
                          let acc' := obj_set k v acc in
                          match skip_ws r3 with
                          | String c3 r4 =>
                              if is_char c3 44 then parse_members f acc' (skip_ws r4)
                              else if is_close c3 then Some (JObj acc', r4)
                              else None
                          | EmptyString => None
                          end
                      | None => None
                      end
                    else None
                | EmptyString => None
                end
            | None => None
            end
          else None
      | EmptyString => None
      end
  end
with parse_elements (fuel : nat) (acc : list json) (s : string)
  {struct fuel} : option (json * string) :=
  match fuel with
  | O => None
  | S f =>
      match parse_value f s with
      | Some (v, r) =>
          let acc' := app acc [v] in
          match skip_ws r with
          | String c r' =>
              if is_char c 44 then parse_elements f acc' r'
              else if is_char c 93 then Some (JArr acc', r')
              else None
          | EmptyString => None
          end
      | None => None
      end
  end.

(** [JSON.parse(s)]: one value surrounded by whitespace only. *)
Definition json_parse (s : string) : option json :=
  match parse_value (S (String.length s)) s with
  | Some (v, rest) =>
      match skip_ws rest with EmptyString => Some v | _ => None end
  | None => None
  end.

(* ------------------------------------------------------------------ *)
(** ** Exceptions

    [Error m] is an [Error] the endpoint constructs with [new Error(m)];
    [TypeError] and [SyntaxError] are raised by the engine. The wording of a
    [SyntaxError] (V8 names the offending token and its position) is
    engine-specific and kept as one representative text. *)

Inductive exn : Type :=
| Error (message : string)
| TypeError (message : string)
| SyntaxError.

Definition exn_message (e : exn) : string :=
  match e with
  | Error m => m
  | TypeError m => m
  | SyntaxError => "Unexpected token in JSON"
  end.

Definition except (A : Type) : Type := (exn + A)%type.

Definition throw {A} (e : exn) : except A := inl e.

Definition bind {A B} (m : except A) (k : A -> except B) : except B :=
  match m with inl e => inl e | inr a => k a end.

Notation "x <- m ;; k" := (bind m (fun x => k))
  (at level 61, m at next level, right associativity).

(** [ToString(v)], which throws on an object with its own [toString]. *)
Definition to_string (v : jsval) : except string :=
  match v with
  | Some x =>
      if tostring_throws x then throw (TypeError "Cannot convert object to primitive value")
      else inr (json_to_string x)
  | None => inr "undefined"
  end.

(** What [throw new Error(v)] throws: the [Error] with message
    [ToString(v)], or the [TypeError] of that conversion. *)
Definition new_Error (v : json) : exn :=
  match to_string (Some v) with inr m => Error m | inl e => e end.

Definition squote (s : string) : string := String "'"%char (s ++ "'").

(** [v.k] (a [TypeError] on [undefined] and [null]). *)
Definition read (v : jsval) (k : string) : except jsval :=
  match v with
  | None => throw (TypeError ("Cannot read properties of undefined (reading " ++ squote k ++ ")"))
  | Some JNull => throw (TypeError ("Cannot read properties of null (reading " ++ squote k ++ ")"))
  | Some x => inr (get x k)
  end.

(** [v?.k]. *)
Definition oread (v : jsval) (k : string) : jsval :=
  match v with
  | None => None
  | Some JNull => None
  | Some x => get x k
  end.

Fixpoint mapM {A B} (f : A -> except B) (l : list A) : except (list B) :=
  match l with
  | [] => inr []
  | x :: t => y <- f x ;; ys <- mapM f t ;; inr (y :: ys)
  end.

(* ------------------------------------------------------------------ *)
(** ** [parseAIResponse] *)

Definition empty_str : json := JStr EmptyString.

(** The callback of [parsed.keywords.map(k => ({ word: k.word || '', ... }))]. *)
Definition coerce_keyword (k : json) : except json :=
  w <- read (Some k) "word" ;;
  p <- read (Some k) "phonetic" ;;
  r <- read (Some k) "roots" ;;
  o <- read (Some k) "origin" ;;
  m <- read (Some k) "meaning" ;;
  inr (JObj [("word", js_or w empty_str); ("phonetic", js_or p empty_str);
             ("roots", js_or r empty_str); ("origin", js_or o empty_str);
             ("meaning", js_or m empty_str)]).

(** The statements after [JSON.parse], run on the parsed object [o]; the
    object is mutated in place and returned. *)
Definition coerce (o : list (string * json)) : except json :=
  let o1 := if truthy (lookup "translation" o) then o
            else obj_set "translation" empty_str o in
  let o2 := match lookup "keywords" o1 with
            | Some (JArr _) => o1
            | _ => obj_set "keywords" (JArr []) o1
            end in
  let ks := match lookup "keywords" o2 with Some (JArr l) => l | _ => [] end in
  l <- mapM coerce_keyword ks ;;
  inr (JObj (obj_set "keywords" (JArr (firstn 5 l)) o2)).

(** The [try] block and its [catch]. The text always begins with an opening
    brace, so [JSON.parse] yields an object or fails
    ([json_parse_brace_object] below); the last branch is not reached. *)
Definition parse_candidate (c : string) : except json :=
  let body :=
    match json_parse c with
    | None => throw SyntaxError
    | Some (JObj o) => coerce o
    | Some _ => throw (TypeError "parsed value is not an object")
    end in
  match body with
  | inl e => throw (Error ("Failed to parse AI response: " ++ exn_message e))
  | inr v => inr v
  end.

(** The cleaning of the text: [trim] and the three [replace] calls. *)
Definition clean_text (text : string) : string :=
  strip_fence_end (strip_fence (strip_fence_json (trim text))).

Definition parse_ai_text (text : string) : except json :=
  match brace_match (clean_text text) with
  | None => throw (Error "Could not parse AI response as JSON")
  | Some c => parse_candidate c
  end.

(** [parseAIResponse(text)] on any value: [text.trim()] needs a string. *)
Definition parseAIResponse (text : jsval) : except json :=
  match text with
  | Some (JStr s) => parse_ai_text s
  | None => throw (TypeError "Cannot read properties of undefined (reading 'trim')")
  | Some JNull => throw (TypeError "Cannot read properties of null (reading 'trim')")
  | Some _ => throw (TypeError "text.trim is not a function")
  end.

(* ------------------------------------------------------------------ *)
(** ** Outbound calls and the provider adapters *)

(** One [fetch(url, { method: 'POST', headers, body: JSON.stringify(payload) })]. *)
Record call : Type := mk_call {
  url : string;
  headers : list (string * string);
  payload : json
}.

Record http_response : Type := mk_response {
  ok : bool;
  status : Z;
  body_text : string
}.

(** The endpoint's computations: they log every outbound call and may throw. *)
Definition M (A : Type) : Type := list call -> except A * list call.

Definition mret {A} (a : A) : M A := fun log => (inr a, log).

Definition mthrow {A} (e : exn) : M A := fun log => (inl e, log).

Definition lift {A} (m : except A) : M A := fun log => (m, log).

Definition mbind {A B} (m : M A) (k : A -> M B) : M B :=
  fun log =>
    match m log with
    | (inl e, log') => (inl e, log')
    | (inr a, log') => k a log'
    end.

(** [try { m } catch (e) { h(e) }]. *)
Definition mcatch {A} (m : M A) (h : exn -> M A) : M A :=
  fun log =>
    match m log with
    | (inl e, log') => h e log'
    | (inr a, log') => (inr a, log')
    end.

Notation "x <-- m ;; k" := (mbind m (fun x => k))
  (at level 61, m at next level, right associativity).

(** [await response.json()]. *)
Definition response_json (r : http_response) : except json :=
  match json_parse (body_text r) with
  | Some v => inr v
  | None => throw SyntaxError
  end.

(** [{ k: v }] as [JSON.stringify] writes it: an [undefined] value is left out. *)
Definition opt_field (k : string) (v : jsval) : list (string * json) :=
  match v with Some x => [(k, x)] | None => [] end.

Definition temperature : json := JNum 3 (-1).
Definition max_tokens : json := JNum 2048 0.

Definition system_prompt_deepseek : string :=
  "You are a helpful assistant that analyzes English text and provides etymology information. Always respond with valid JSON only, no markdown.".

Definition system_prompt_openrouter : string :=
  "You are a helpful assistant that analyzes English text and provides etymology information. Always respond with valid JSON only, no markdown code blocks.".

Definition chat_payload (model prompt : jsval) (system : string) : json :=
  JObj (opt_field "model" model ++
        [("messages", JArr [JObj [("role", JStr "system"); ("content", JStr system)];
                            JObj (("role", JStr "user") :: opt_field "content" prompt)]);
         ("temperature", temperature); ("max_tokens", max_tokens)]).

Section Adapters.

(** The network: the response to each outbound request, or [None] when
    [fetch] itself rejects. *)
Variable net : call -> option http_response.

Definition fetch (c : call) : M http_response :=
  fun log =>
    match net c with
    | Some r => (inr r, app log [c])
    | None => (inl (TypeError "fetch failed"), app log [c])
    end.

(** The request each adapter sends. Its text uses [js_to_string] on [model]
    and [apiKey]; a value on which [ToString] throws ([tostring_throws])
    makes the JavaScript adapter throw before [fetch], which these builders
    do not model: statements about a sent request hold where no such value
    is passed. *)
Definition gemini_call (apiKey model prompt : jsval) : call :=
  {| url := "https://generativelanguage.googleapis.com/v1beta/models/" ++
            js_to_string model ++ ":generateContent?key=" ++ js_to_string apiKey;
     headers := [("Content-Type", "application/json")];
     payload := JObj [("contents", JArr [JObj [("parts", JArr [JObj (opt_field "text" prompt)])]]);
                      ("generationConfig", JObj [("temperature", temperature);
                                                 ("maxOutputTokens", max_tokens)])] |}.

Definition callGemini (apiKey model prompt : jsval) : M json :=
  response <-- fetch (gemini_call apiKey model prompt) ;;
  if negb (ok response) then
    error <-- lift (response_json response) ;;
    ee <-- lift (read (Some error) "error") ;;
    mthrow (new_Error (js_or (oread ee "message") (JStr "Gemini API request failed")))
  else
    data <-- lift (response_json response) ;;
    cands <-- lift (read (Some data) "candidates") ;;
    let text := oread (oread (oread (oread (oread cands "0") "content") "parts") "0") "text" in
    if negb (truthy text) then mthrow (Error "No response from Gemini")
    else lift (parseAIResponse text).

Definition deepseek_call (apiKey model prompt : jsval) : call :=
  {| url := "https://api.deepseek.com/v1/chat/completions";
     headers := [("Content-Type", "application/json");
                 ("Authorization", "Bearer " ++ js_to_string apiKey)];
     payload := chat_payload model prompt system_prompt_deepseek |}.

Definition callDeepSeek (apiKey model prompt : jsval) : M json :=
  response <-- fetch (deepseek_call apiKey model prompt) ;;
  if negb (ok response) then
    error <-- lift (response_json response) ;;
    ee <-- lift (read (Some error) "error") ;;
    mthrow (new_Error (js_or (oread ee "message") (JStr "DeepSeek API request failed")))
  else
    data <-- lift (response_json response) ;;
    choices <-- lift (read (Some data) "choices") ;;
    let text := oread (oread (oread choices "0") "message") "content" in
    if negb (truthy text) then mthrow (Error "No response from DeepSeek")
    else lift (parseAIResponse text).

Definition openrouter_call (apiKey model prompt : jsval) : call :=
  {| url := "https://openrouter.ai/api/v1/chat/completions";
     headers := [("Content-Type", "application/json");
                 ("Authorization", "Bearer " ++ js_to_string apiKey);
                 ("HTTP-Referer", "https://english-collector.vercel.app");
                 ("X-Title", "English Collector")];
     payload := chat_payload model prompt system_prompt_openrouter |}.

Definition callOpenRouter (apiKey model prompt : jsval) : M json :=
  response <-- fetch (openrouter_call apiKey model prompt) ;;
  if negb (ok response) then
    errorData <-- mcatch (lift (response_json response)) (fun _ => mret (JObj [])) ;;
    ee <-- lift (read (Some errorData) "error") ;;
    let msg := js_or (oread ee "message")
                     (JStr ("OpenRouter error " ++ number_to_string (status response) 0)) in
    mthrow (new_Error msg)
  else
    data <-- lift (response_json response) ;;
    choices <-- lift (read (Some data) "choices") ;;
    let text := oread (oread (oread choices "0") "message") "content" in
    if negb (truthy text) then mthrow (Error "No response from OpenRouter")
    else lift (parseAIResponse text).

(* ------------------------------------------------------------------ *)
(** ** [handler] *)

Record request : Type := mk_request {
  method : string;
  body : jsval   (** [req.body] *)
}.

(** What the handler sends: [res.status(s).end()] or [res.status(s).json(v)]. *)
Inductive reply : Type :=
| Ended (code : Z)
| Sent (code : Z) (payload : json).

Definition message_reply (code : Z) (m : string) : reply :=
  Sent code (JObj [("message", JStr m)]).

Definition is_provider (p : jsval) (name : string) : bool :=
  match p with Some (JStr s) => String.eqb s name | _ => false end.

(** The statements inside [try]. *)
Definition handle_post (b : jsval) : M reply :=
  match b with
  | None => mthrow (TypeError "Cannot destructure property 'provider' of 'req.body' as it is undefined.")
  | Some JNull => mthrow (TypeError "Cannot destructure property 'provider' of 'req.body' as it is null.")
  | Some v =>
      let provider := get v "provider" in
      let model := get v "model" in
      let apiKey := get v "apiKey" in
      let prompt := get v "prompt" in
      if negb (truthy apiKey) then mret (message_reply 400 "API key is required")
      else if negb (truthy prompt) then mret (message_reply 400 "Prompt is required")
      else if is_provider provider "gemini" then
        result <-- callGemini apiKey model prompt ;; mret (Sent 200 result)
      else if is_provider provider "deepseek" then
        result <-- callDeepSeek apiKey model prompt ;; mret (Sent 200 result)
      else if is_provider provider "openrouter" then
        result <-- callOpenRouter apiKey model prompt ;; mret (Sent 200 result)
      else
        p <-- lift (to_string provider) ;;
        mret (message_reply 400 ("Unknown provider: " ++ p))
  end.

Definition error_reply (e : exn) : reply :=
  message_reply 500
    (match exn_message e with EmptyString => "Internal server error" | m => m end).

Definition handler (req : request) : M reply :=
  if String.eqb (method req) "OPTIONS" then mret (Ended 200)
  else if negb (String.eqb (method req) "POST") then
    mret (message_reply 405 "Method not allowed")
  else mcatch (handle_post (body req)) (fun e => mret (error_reply e)).

End Adapters.

(** One request from an empty log: the reply and the outbound calls made. *)
Definition dispatch (net : call -> option http_response) (req : request)
  : except reply * list call :=
  handler net req [].

(** The status code of a reply. *)
Definition reply_code (r : reply) : Z :=
  match r with Ended c => c | Sent c _ => c end.

(* ------------------------------------------------------------------ *)
(** ** The earlier copy of the endpoint ([src/unnamed/part_000])

    Its adapters for Gemini and DeepSeek and its cleaning of the text are
    those above; it knows no OpenRouter, answers an unknown provider with a
    bare message, and builds keyword entries without [phonetic], mapping
    and slicing in two statements. *)

(** The callback of [parsed.keywords.map(k => ({ word: k.word || '', roots: ..., origin: ..., meaning: ... }))]. *)
Definition legacy_coerce_keyword (k : json) : except json :=
  w <- read (Some k) "word" ;;
  r <- read (Some k) "roots" ;;
  o <- read (Some k) "origin" ;;
  m <- read (Some k) "meaning" ;;
  inr (JObj [("word", js_or w empty_str); ("roots", js_or r empty_str);
             ("origin", js_or o empty_str); ("meaning", js_or m empty_str)]).

Definition legacy_coerce (o : list (string * json)) : except json :=
  let o1 := if truthy (lookup "translation" o) then o
            else obj_set "translation" empty_str o in
  let o2 := match lookup "keywords" o1 with
            | Some (JArr _) => o1
            | _ => obj_set "keywords" (JArr []) o1
            end in
  let ks := match lookup "keywords" o2 with Some (JArr l) => l | _ => [] end in
  l <- mapM legacy_coerce_keyword ks ;;
  let o3 := obj_set "keywords" (JArr l) o2 in
  let l' := match lookup "keywords" o3 with Some (JArr l') => l' | _ => [] end in
  inr (JObj (obj_set "keywords" (JArr (firstn 5 l')) o3)).

Definition legacy_parse_candidate (c : string) : except json :=
  let body :=
    match json_parse c with
    | None => throw SyntaxError
    | Some (JObj o) => legacy_coerce o
    | Some _ => throw (TypeError "parsed value is not an object")
    end in
  match body with
  | inl e => throw (Error ("Failed to parse AI response: " ++ exn_message e))
  | inr v => inr v
  end.

Definition legacy_parse_ai_text (text : string) : except json :=
  match brace_match (clean_text text) with
  | None => throw (Error "Could not parse AI response as JSON")
  | Some c => legacy_parse_candidate c
  end.

Definition legacy_parseAIResponse (text : jsval) : except json :=
  match text with
  | Some (JStr s) => legacy_parse_ai_text s
  | None => throw (TypeError "Cannot read properties of undefined (reading 'trim')")
  | Some JNull => throw (TypeError "Cannot read properties of null (reading 'trim')")
  | Some _ => throw (TypeError "text.trim is not a function")
  end.

Section LegacyAdapters.

Variable net : call -> option http_response.

Definition legacy_callGemini (apiKey model prompt : jsval) : M json :=
  response <-- fetch net (gemini_call apiKey model prompt) ;;
  if negb (ok response) then
    error <-- lift (response_json response) ;;
    ee <-- lift (read (Some error) "error") ;;
    mthrow (new_Error (js_or (oread ee "message") (JStr "Gemini API request failed")))
  else
    data <-- lift (response_json response) ;;
    cands <-- lift (read (Some data) "candidates") ;;
    let text := oread (oread (oread (oread (oread cands "0") "content") "parts") "0") "text" in
    if negb (truthy text) then mthrow (Error "No response from Gemini")
    else lift (legacy_parseAIResponse text).

Definition legacy_callDeepSeek (apiKey model prompt : jsval) : M json :=
  response <-- fetch net (deepseek_call apiKey model prompt) ;;
  if negb (ok response) then
    error <-- lift (response_json response) ;;
    ee <-- lift (read (Some error) "error") ;;
    mthrow (new_Error (js_or (oread ee "message") (JStr "DeepSeek API request failed")))
  else
    data <-- lift (response_json response) ;;
    choices <-- lift (read (Some data) "choices") ;;
    let text := oread (oread (oread choices "0") "message") "content" in
    if negb (truthy text) then mthrow (Error "No response from DeepSeek")
    else lift (legacy_parseAIResponse text).

Definition legacy_handle_post (b : jsval) : M reply :=
  match b with
  | None => mthrow (TypeError "Cannot destructure property 'provider' of 'req.body' as it is undefined.")
  | Some JNull => mthrow (TypeError "Cannot destructure property 'provider' of 'req.body' as it is null.")
  | Some v =>
      let provider := get v "provider" in
      let model := get v "model" in
      let apiKey := get v "apiKey" in
      let prompt := get v "prompt" in
      if negb (truthy apiKey) then mret (message_reply 400 "API key is required")
      else if negb (truthy prompt) then mret (message_reply 400 "Prompt is required")
      else if is_provider provider "gemini" then
        result <-- legacy_callGemini apiKey model prompt ;; mret (Sent 200 result)
      else if is_provider provider "deepseek" then
        result <-- legacy_callDeepSeek apiKey model prompt ;; mret (Sent 200 result)
      else mret (message_reply 400 "Unknown provider")
  end.

Definition legacy_handler (req : request) : M reply :=
  if String.eqb (method req) "OPTIONS" then mret (Ended 200)
  else if negb (String.eqb (method req) "POST") then
    mret (message_reply 405 "Method not allowed")
  else mcatch (legacy_handle_post (body req)) (fun e => mret (error_reply e)).

End LegacyAdapters.

Definition legacy_dispatch (net : call -> option http_response) (req : request)
  : except reply * list call :=
  legacy_handler net req [].

(** A keyword entry without its [phonetic] field. *)
Definition drop_phonetic (v : json) : json :=
  match v with
  | JObj o => JObj (filter (fun p => negb (String.eqb (fst p) "phonetic")) o)
  | _ => v
  end.

(** A normalized result with [phonetic] dropped from each keyword entry. *)
Definition drop_phonetic_result (v : json) : json :=
  match v with
  | JObj o =>
      let ks := match lookup "keywords" o with Some (JArr l) => l | _ => [] end in
      JObj (obj_set "keywords" (JArr (map drop_phonetic ks)) o)
  | _ => v
  end.

(* ------------------------------------------------------------------ *)
(** ** The candidate text as the specification words it

    Trim; strip one leading fence [```json] (any case) or else a bare
    [```]; strip one trailing [```]; then the text from the first opening
    brace through the last closing brace, if the last comes after the first. *)

(** [s] starts with [w] up to the case of ASCII letters. *)
Fixpoint after_prefix_ci (w s : string) : option string :=
  match w, s with
  | EmptyString, _ => Some s
  | String a w', String b s' =>
      if ci_char b (code a) then after_prefix_ci w' s' else None
  | _, _ => None
  end.

Definition spec_strip_leading (s : string) : string :=
  match after_prefix_ci "```json" s with
  | Some r => r
  | None => match after_prefix "```" s with Some r => r | None => s end
  end.

Definition spec_strip_trailing (s : string) : string :=
  let n := String.length s in
  if Nat.leb 3 n && String.eqb (substring (n - 3) 3 s) "```"
  then substring 0 (n - 3) s else s.

Fixpoint first_index (p : ascii -> bool) (s : string) : option nat :=
  match s with
  | EmptyString => None
  | String c r => if p c then Some 0 else option_map S (first_index p r)
  end.

Fixpoint last_index (p : ascii -> bool) (s : string) : option nat :=
  match s with
  | EmptyString => None
  | String c r =>
      match last_index p r with
      | Some j => Some (S j)
      | None => if p c then Some 0 else None
      end
  end.

Definition spec_span (s : string) : option string :=
  match first_index is_open s, last_index is_close s with
  | Some i, Some j => if Nat.leb i j then Some (substring i (S j - i) s) else None
  | _, _ => None
  end.

Definition spec_candidate (text : string) : option string :=
  spec_span (spec_strip_trailing (spec_strip_leading (trim text))).

(* ------------------------------------------------------------------ *)
(** ** [JSON.stringify] and the canonical result *)

Definition hex_digit (n : nat) : ascii :=
  if Nat.ltb n 10 then chr (48 + n) else chr (87 + n).

(** One character of [QuoteJSONString]. *)
Definition escape_char (c : ascii) : string :=
  let n := code c in
  if Nat.eqb n 8 then "\b"
  else if Nat.eqb n 9 then "\t"
  else if Nat.eqb n 10 then "\n"
  else if Nat.eqb n 12 then "\f"
  else if Nat.eqb n 13 then "\r"
  else if Nat.eqb n 34 then String (chr 92) (String dq EmptyString)
  else if Nat.eqb n 92 then String (chr 92) (String (chr 92) EmptyString)
  else if Nat.ltb n 32 then
    "\u00" ++ String (hex_digit (n / 16)) (String (hex_digit (n mod 16)) EmptyString)
  else String c EmptyString.

Fixpoint escape (s : string) : string :=
  match s with
  | EmptyString => EmptyString
  | String c r => escape_char c ++ escape r
  end.

Definition quote (s : string) : string := String dq (escape s ++ String dq EmptyString).
Arguments quote : simpl never.

Fixpoint stringify (v : json) : string :=
  match v with
  | JNull => "null"
  | JBool true => "true"
  | JBool false => "false"
  | JNum m e => if num_is_infinite m e then "null" else number_to_string m e
  | JStr s => quote s
  | JArr l =>
      let fix elems (l : list json) :=
        match l with
        | [] => EmptyString
        | [x] => stringify x
        | x :: t => stringify x ++ "," ++ elems t
        end in
      "[" ++ elems l ++ "]"
  | JObj o =>
      let fix members (o : list (string * json)) :=
        match o with
        | [] => EmptyString
        | [(k, x)] => quote k ++ ":" ++ stringify x
        | (k, x) :: t => quote k ++ ":" ++ stringify x ++ "," ++ members t
        end in
      "{" ++ members o ++ "}"
  end.

(** AnalysisResult and KeywordEntry with string fields. *)
Record keyword_entry : Type := mk_entry {
  word : string; phonetic : string; roots : string; origin : string; meaning : string
}.

Record analysis_result : Type := mk_result {
  translation : string;
  keywords : list keyword_entry
}.

Definition canonical (r : analysis_result) : Prop := length (keywords r) <= 5.

Definition entry_json (k : keyword_entry) : json :=
  JObj [("word", JStr (word k)); ("phonetic", JStr (phonetic k));
        ("roots", JStr (roots k)); ("origin", JStr (origin k));
        ("meaning", JStr (meaning k))].

Definition result_json (r : analysis_result) : json :=
  JObj [("translation", JStr (translation r));
        ("keywords", JArr (map entry_json (keywords r)))].

(** Proof helper: the elements of an array as [stringify] joins them. *)
Fixpoint elems_text (l : list json) : string :=
  match l with
  | [] => EmptyString
  | [x] => stringify x
  | x :: t => stringify x ++ "," ++ elems_text t
  end.

(** The keyword entry built by [coerce_keyword] from an element that is
    not [null]. *)
Definition keyword_of (k : json) : json :=
  JObj [("word", js_or (get k "word") empty_str); ("phonetic", js_or (get k "phonetic") empty_str);
        ("roots", js_or (get k "roots") empty_str); ("origin", js_or (get k "origin") empty_str);
        ("meaning", js_or (get k "meaning") empty_str)].

(** The keywords the coercion maps: the parsed array, or none. *)
Definition keyword_list (o : list (string * json)) : list json :=
  match lookup "keywords" o with Some (JArr l) => l | _ => [] end.

(** Top-level names other than the two the coercion writes. *)
Definition other_key (k : string) : bool :=
  negb (String.eqb k "translation") && negb (String.eqb k "keywords").

(** Proof helper: no character of [s] satisfies [p]. *)
Fixpoint no_char (p : ascii -> bool) (s : string) : bool :=
  match s with
  | EmptyString => true
  | String c r => negb (p c) && no_char p r
  end.

(** Proof helper: a character that could match a letter of [w] up to case
    is never an opening brace. *)
Definition ci_not_open (w : string) : bool :=
  no_char (fun a => Nat.eqb (code a) 123 || Nat.eqb (code a - 32) 123) w.

(* ------------------------------------------------------------------ *)
(** * Examples *)

Definition post (b : json) : request := mk_request "POST" (Some b).

Definition gemini_envelope : string :=
  sq "{'candidates':[{'content':{'parts':[{'text':'{\'translation\':\'hi\',\'keywords\':[]}'}]}}]}".

(** A POST naming provider [p], with a key, a model and a prompt. *)
Definition provider_request (p : string) : request :=
  post (JObj [("provider", JStr p); ("model", JStr "m");
              ("apiKey", JStr "k"); ("prompt", JStr "p")]).

(** A failed upstream response whose body is not JSON (a gateway page). *)
Definition bad_gateway : http_response :=
  mk_response false 502 "<html>Bad Gateway</html>".

(** A failed upstream response with the provider's error object. *)
Definition bad_key_response : http_response :=
  mk_response false 401 (sq "{'error':{'message':'bad key'}}").


Definition canonical_sample : analysis_result :=
  mk_result (String (chr 1) (String dq "{x}"))
    [mk_entry "a" (String (chr 92) EmptyString) EmptyString "o" "m";
     mk_entry "```" "/f/" "r" "{" "}"].

(** A reply with six keywords, one with an extra field. *)
Definition six_keywords : string :=
  sq "{'keywords':[{'word':'a','x':1},{},{},{},{},{'word':'f'}]}".

(** A successful upstream response with no text in it. *)
Definition empty_envelope : http_response := mk_response true 200 "{}".

(** Evaluations of the embedding on sample inputs. *)

Example number_to_string_ex :
  number_to_string 2048 0 = "2048" /\ number_to_string 3 (-1) = "0.3" /\
  number_to_string 15 20 = "1.5e+21" /\ number_to_string (-1) (-7) = "-1e-7" /\
  number_to_string 1 (-400) = "0" /\ number_to_string 120 (-2) = "1.2" /\
  number_to_string 30000000000000001 (-17) = "0.3" /\
  number_to_string 9007199254740993 0 = "9007199254740992" /\
  number_to_string 1 23 = "1e+23" /\ number_to_string 3 (-324) = "5e-324".
Proof. vm_compute. repeat split. Qed.

Example trim_ex : trim (String (chr 160) (String (chr 10) "a b ")) = "a b".
Proof. reflexivity. Qed.

Example json_parse_ex :
  json_parse (sq "{'a' : [1, -2.5e1, true, null], 'b':'x\n', 'a': {}}")
  = Some (JObj [("a", JObj []); ("b", JStr (String "x"%char (String (chr 10) EmptyString)))]).
Proof. vm_compute. reflexivity. Qed.

Example json_parse_reject :
  json_parse (sq "{'a':01}") = None /\ json_parse (sq "{'a':1,}") = None.
Proof. vm_compute. split; reflexivity. Qed.

Example parse_ai_fenced :
  parse_ai_text (sq "```json
{'translation':'x','keywords':[]}
```")
  = inr (JObj [("translation", JStr "x"); ("keywords", JArr [])]).
Proof. vm_compute. reflexivity. Qed.

Example parse_ai_default :
  parse_ai_text (sq "{'keywords':[{'word':'run'}]}")
  = inr (JObj [("keywords", JArr [JObj [("word", JStr "run"); ("phonetic", empty_str);
       ("roots", empty_str); ("origin", empty_str); ("meaning", empty_str)]]);
       ("translation", empty_str)]).
Proof. vm_compute. reflexivity. Qed.

Example parse_ai_nojson :
  parse_ai_text "no json here" = inl (Error "Could not parse AI response as JSON").
Proof. vm_compute. reflexivity. Qed.

Example gemini_end_to_end :
  fst (dispatch (fun _ => Some (mk_response true 200 gemini_envelope))
         (post (JObj [("provider", JStr "gemini"); ("model", JStr "m");
                      ("apiKey", JStr "k"); ("prompt", JStr "p")])))
  = inr (Sent 200 (JObj [("translation", JStr "hi"); ("keywords", JArr [])])).
Proof. vm_compute. reflexivity. Qed.

Example stringify_roundtrip_ex :
  let r := mk_result (String (chr 1) (String dq "{x}")) [mk_entry "a" (String (chr 92) EmptyString) EmptyString "o" "m"] in
  parse_ai_text (stringify (result_json r)) = inr (result_json r).
Proof. vm_compute. reflexivity. Qed.

Example legacy_parse_ai_ex :
  legacy_parse_ai_text (sq "{'keywords':[{'word':'run','phonetic':'x','y':1}]}")
  = inr (JObj [("keywords", JArr [JObj [("word", JStr "run"); ("roots", empty_str);
       ("origin", empty_str); ("meaning", empty_str)]]); ("translation", empty_str)]).
Proof. vm_compute. reflexivity. Qed.

(* ------------------------------------------------------------------ *)
(** * The dispatcher *)

(** C6: a POST whose body lacks a truthy [apiKey] or [prompt] (empty,
    missing, or another falsy value) is answered 400 with the validation
    message, whatever the provider and the network, before any adapter is
    chosen and with no outbound call; that reply is not the 500 reply of a
    provider or parse failure. *)
Theorem validation_before_dispatch :
  forall (net : call -> option http_response) (o : list (string * json)),
    truthy (lookup "apiKey" o) = false \/ truthy (lookup "prompt" o) = false ->
    let rep := if truthy (lookup "apiKey" o) then message_reply 400 "Prompt is required"
               else message_reply 400 "API key is required" in
    dispatch net (post (JObj o)) = (inr rep, []) /\
    (forall e, error_reply e <> rep).
Proof.
  intros net o H rep. split.
  - unfold dispatch, handler, post, rep; simpl.
    unfold mcatch, handle_post; simpl.
    destruct (truthy (lookup "apiKey" o)) eqn:Ha; simpl.
    + destruct H as [H | H]; [discriminate | rewrite H]; reflexivity.
    + reflexivity.
  - intros e. unfold error_reply, message_reply, rep.
    destruct (truthy (lookup "apiKey" o)); intros Heq; inversion Heq.
Qed.

Lemma validation_before_dispatch_witness :
  (truthy (lookup "apiKey" [("provider", JStr "gemini"); ("apiKey", JStr EmptyString);
                             ("prompt", JStr "p")]) = false \/
   truthy (lookup "prompt" [("provider", JStr "gemini"); ("apiKey", JStr EmptyString);
                             ("prompt", JStr "p")]) = false) /\
  dispatch (fun _ => None)
    (post (JObj [("provider", JStr "gemini"); ("apiKey", JStr EmptyString); ("prompt", JStr "p")]))
  = (inr (message_reply 400 "API key is required"), []).
Proof.
  split.
  - left; reflexivity.
  - apply (validation_before_dispatch (fun _ => None)
             [("provider", JStr "gemini"); ("apiKey", JStr EmptyString); ("prompt", JStr "p")]).
    left; reflexivity.
Defined.

(** C3: a valid POST naming a provider string other than [gemini],
    [deepseek] and [openrouter] is answered 400 with exactly
    [Unknown provider: <providerId>] and makes no outbound call. *)
Theorem unknown_provider_rejected :
  forall (net : call -> option http_response) (o : list (string * json)) (p : string),
    lookup "provider" o = Some (JStr p) ->
    p <> "gemini" -> p <> "deepseek" -> p <> "openrouter" ->
    truthy (lookup "apiKey" o) = true ->
    truthy (lookup "prompt" o) = true ->
    dispatch net (post (JObj o)) = (inr (message_reply 400 ("Unknown provider: " ++ p)), []).
Proof.
  intros net o p Hp H1 H2 H3 Ha Hq.
  unfold dispatch, handler, post; simpl.
  unfold mcatch, handle_post; simpl.
  rewrite Ha, Hq, Hp; simpl.
  apply String.eqb_neq in H1, H2, H3.
  rewrite H1, H2, H3. reflexivity.
Qed.

Lemma unknown_provider_rejected_witness :
  dispatch (fun _ => None)
    (post (JObj [("provider", JStr "claude"); ("apiKey", JStr "k"); ("prompt", JStr "p")]))
  = (inr (message_reply 400 "Unknown provider: claude"), []).
Proof.
  apply (unknown_provider_rejected (fun _ => None)
           [("provider", JStr "claude"); ("apiKey", JStr "k"); ("prompt", JStr "p")] "claude");
    try reflexivity; discriminate.
Defined.

(* ------------------------------------------------------------------ *)
(** * Objects *)

Lemma lookup_obj_set :
  forall k k' v o,
    lookup k (obj_set k' v o) = if String.eqb k k' then Some v else lookup k o.
Proof.
  intros k k' v o. induction o as [| [k0 v0] t IH]; simpl.
  - destruct (String.eqb k k'); reflexivity.
  - destruct (String.eqb_spec k' k0) as [E | E]; simpl.
    + subst k0. destruct (String.eqb k k'); reflexivity.
    + destruct (String.eqb_spec k k0) as [E2 | E2].
      * subst k0. destruct (String.eqb_spec k k') as [E3 | E3]; [congruence | reflexivity].
      * exact IH.
Qed.

Lemma keys_obj_set :
  forall (P : string -> bool) k v o,
    P k = false ->
    filter P (map fst (obj_set k v o)) = filter P (map fst o).
Proof.
  intros P k v o HP. induction o as [| [k0 v0] t IH]; simpl.
  - rewrite HP. reflexivity.
  - destruct (String.eqb_spec k k0) as [E | E]; simpl.
    + subst k0. rewrite HP. reflexivity.
    + destruct (P k0); [f_equal |]; exact IH.
Qed.

(* ------------------------------------------------------------------ *)
(** * The coercion *)

Lemma parse_ai_text_inv :
  forall text r,
    parse_ai_text text = inr r ->
    exists c o, brace_match (clean_text text) = Some c /\
                json_parse c = Some (JObj o) /\ coerce o = inr r.
Proof.
  intros text r H. unfold parse_ai_text in H.
  destruct (brace_match (clean_text text)) as [c |] eqn:Hb; [| discriminate].
  unfold parse_candidate in H.
  destruct (json_parse c) as [[] |] eqn:Hj; try discriminate.
  exists c, o. split; [reflexivity |]. split; [exact Hj |].
  destruct (coerce o); cbv beta iota zeta in H; unfold throw in H;
    [discriminate | congruence].
Qed.

Lemma coerce_keyword_ok :
  forall k y, coerce_keyword k = inr y -> y = keyword_of k.
Proof.
  intros k y H. destruct k; try discriminate; injection H as <-; reflexivity.
Qed.

Lemma mapM_coerce_keyword :
  forall ks l, mapM coerce_keyword ks = inr l -> l = map keyword_of ks.
Proof.
  induction ks as [| k t IH]; intros l H; simpl in H.
  - injection H as <-; reflexivity.
  - unfold bind in H.
    destruct (coerce_keyword k) as [| y] eqn:E; [discriminate |].
    destruct (mapM coerce_keyword t) as [| ys] eqn:E2; [discriminate |].
    injection H as <-. simpl. rewrite (coerce_keyword_ok _ _ E), (IH ys eq_refl). reflexivity.
Qed.

(** The shape of a coerced object: [translation] written only when falsy,
    [keywords] written with the mapped first five entries. *)
Lemma coerce_inv :
  forall o r,
    coerce o = inr r ->
    let o1 := if truthy (lookup "translation" o) then o
              else obj_set "translation" empty_str o in
    let o2 := match lookup "keywords" o1 with
              | Some (JArr _) => o1
              | _ => obj_set "keywords" (JArr []) o1
              end in
    r = JObj (obj_set "keywords" (JArr (firstn 5 (map keyword_of (keyword_list o)))) o2).
Proof.
  intros o r H o1 o2. unfold coerce in H. fold o1 o2 in H.
  assert (Hk1 : lookup "keywords" o1 = lookup "keywords" o).
  { unfold o1. destruct (truthy (lookup "translation" o)); [reflexivity |].
    rewrite lookup_obj_set. reflexivity. }
  assert (Hk2 : match lookup "keywords" o2 with Some (JArr l) => l | _ => [] end
                = keyword_list o).
  { unfold o2, keyword_list. rewrite Hk1.
    destruct (lookup "keywords" o) as [[] |] eqn:E;
      try (rewrite lookup_obj_set; reflexivity).
    rewrite Hk1. reflexivity. }
  rewrite Hk2 in H. unfold bind in H.
  destruct (mapM coerce_keyword (keyword_list o)) as [| l] eqn:E; [discriminate |].
  injection H as <-. rewrite (mapM_coerce_keyword _ _ E). reflexivity.
Qed.

(** C5: on success the [keywords] of the result are the first five parsed
    elements in order, each rebuilt with the five fields [word],
    [phonetic], [roots], [origin], [meaning], each one the parsed field when
    truthy and the empty string otherwise; there are at most five. *)
Theorem keywords_first_five_defaulted :
  forall text r,
    parse_ai_text text = inr r ->
    exists c o,
      brace_match (clean_text text) = Some c /\ json_parse c = Some (JObj o) /\
      get r "keywords" = Some (JArr (map keyword_of (firstn 5 (keyword_list o)))) /\
      length (firstn 5 (keyword_list o)) <= 5.
Proof.
  intros text r H.
  destruct (parse_ai_text_inv _ _ H) as (c & o & H1 & H2 & H3).
  exists c, o. repeat split; auto.
  - rewrite (coerce_inv _ _ H3). unfold get. rewrite lookup_obj_set, String.eqb_refl.
    rewrite firstn_map. reflexivity.
  - rewrite length_firstn. lia.
Qed.

Lemma keywords_first_five_defaulted_witness :
  exists r, parse_ai_text six_keywords = inr r /\
  exists c o,
    brace_match (clean_text six_keywords) = Some c /\ json_parse c = Some (JObj o) /\
    get r "keywords" = Some (JArr (map keyword_of (firstn 5 (keyword_list o)))) /\
    length (firstn 5 (keyword_list o)) <= 5.
Proof.
  exists (JObj [("keywords", JArr (map keyword_of
                  [JObj [("word", JStr "a"); ("x", JNum 1 0)]; JObj []; JObj []; JObj []; JObj []]));
                ("translation", empty_str)]).
  split.
  - vm_compute. reflexivity.
  - apply keywords_first_five_defaulted. vm_compute. reflexivity.
Defined.

Lemma other_key_spec :
  forall k, other_key k = true ->
    String.eqb k "translation" = false /\ String.eqb k "keywords" = false.
Proof.
  intros k H. unfold other_key in H.
  apply andb_prop in H as [H1 H2]. apply negb_true_iff in H1, H2. auto.
Qed.

(** The two writes before the keywords are mapped leave every other name
    where it was and with its value. *)
Lemma coerce_writes_frame :
  forall o,
    let o1 := if truthy (lookup "translation" o) then o
              else obj_set "translation" empty_str o in
    let o2 := match lookup "keywords" o1 with
              | Some (JArr _) => o1
              | _ => obj_set "keywords" (JArr []) o1
              end in
    (forall k, other_key k = true -> lookup k o2 = lookup k o) /\
    filter other_key (map fst o2) = filter other_key (map fst o).
Proof.
  intros o o1 o2.
  assert (H1 : (forall k, other_key k = true -> lookup k o1 = lookup k o) /\
               filter other_key (map fst o1) = filter other_key (map fst o)).
  { unfold o1. destruct (truthy (lookup "translation" o)); [split; reflexivity |].
    split.
    - intros k Hk. destruct (other_key_spec k Hk) as [Ht _].
      rewrite lookup_obj_set, Ht. reflexivity.
    - apply keys_obj_set. reflexivity. }
  destruct H1 as [H1a H1b].
  unfold o2. destruct (lookup "keywords" o1) as [[] |]; try (split; assumption);
    (split;
     [ intros k Hk; destruct (other_key_spec k Hk) as [_ Hw];
       rewrite lookup_obj_set, Hw; apply H1a; exact Hk
     | rewrite keys_obj_set by reflexivity; exact H1b ]).
Qed.

(** C10: the result is the parsed object itself after the writes: every
    top-level property other than [translation] and [keywords] keeps its
    value and its place, and each keyword entry is rebuilt with exactly the
    five fields [word], [phonetic], [roots], [origin], [meaning], in that
    order, so other fields of an entry are dropped. *)
Theorem result_is_mutated_parsed_object :
  forall text r,
    parse_ai_text text = inr r ->
    exists c o o',
      brace_match (clean_text text) = Some c /\ json_parse c = Some (JObj o) /\
      r = JObj o' /\
      (forall k, other_key k = true -> lookup k o' = lookup k o) /\
      filter other_key (map fst o') = filter other_key (map fst o) /\
      lookup "keywords" o' = Some (JArr (map keyword_of (firstn 5 (keyword_list o)))) /\
      Forall (fun e => exists a b c d f,
                  e = JObj [("word", a); ("phonetic", b); ("roots", c);
                            ("origin", d); ("meaning", f)])
             (map keyword_of (firstn 5 (keyword_list o))).
Proof.
  intros text r H.
  destruct (parse_ai_text_inv _ _ H) as (c & o & H1 & H2 & H3).
  pose proof (coerce_inv _ _ H3) as Hr.
  pose proof (coerce_writes_frame o) as [Fa Fb].
  cbv zeta in Hr, Fa, Fb.
  eexists c, o, _. split; [exact H1 |]. split; [exact H2 |]. split; [exact Hr |].
  split; [| split; [| split]].
  - intros k Hk. destruct (other_key_spec k Hk) as [_ Hw].
    rewrite lookup_obj_set, Hw. apply Fa. exact Hk.
  - rewrite keys_obj_set by reflexivity. exact Fb.
  - rewrite lookup_obj_set, String.eqb_refl, firstn_map. reflexivity.
  - apply Forall_forall. intros e He. apply in_map_iff in He as (k & <- & _).
    do 5 eexists. reflexivity.
Qed.

Lemma result_is_mutated_parsed_object_witness :
  exists r, parse_ai_text (sq "{'id':7,'keywords':[{'word':'w','note':'n'}]}") = inr r /\
  exists c o o',
    brace_match (clean_text (sq "{'id':7,'keywords':[{'word':'w','note':'n'}]}")) = Some c /\
    json_parse c = Some (JObj o) /\ r = JObj o' /\
    (forall k, other_key k = true -> lookup k o' = lookup k o) /\
    filter other_key (map fst o') = filter other_key (map fst o) /\
    lookup "keywords" o' = Some (JArr (map keyword_of (firstn 5 (keyword_list o)))) /\
    Forall (fun e => exists a b c d f,
                e = JObj [("word", a); ("phonetic", b); ("roots", c);
                          ("origin", d); ("meaning", f)])
           (map keyword_of (firstn 5 (keyword_list o))).
Proof.
  exists (JObj [("id", JNum 7 0);
                ("keywords", JArr [keyword_of (JObj [("word", JStr "w"); ("note", JStr "n")])]);
                ("translation", empty_str)]).
  split.
  - vm_compute. reflexivity.
  - apply result_is_mutated_parsed_object. vm_compute. reflexivity.
Defined.

(** C2, as the code does it: on success the [translation] of the result is
    the parsed [translation] when that is truthy, unchanged whatever its
    type, and the empty string when it is falsy (absent, null, false, 0 or
    the empty string). *)
Theorem translation_falsy_defaulted :
  forall text r,
    parse_ai_text text = inr r ->
    exists c o,
      brace_match (clean_text text) = Some c /\ json_parse c = Some (JObj o) /\
      get r "translation" = Some (js_or (lookup "translation" o) empty_str).
Proof.
  intros text r H.
  destruct (parse_ai_text_inv _ _ H) as (c & o & H1 & H2 & H3).
  pose proof (coerce_inv _ _ H3) as Hr. cbv zeta in Hr.
  exists c, o. split; [exact H1 |]. split; [exact H2 |].
  rewrite Hr. unfold get. rewrite lookup_obj_set. simpl String.eqb. cbv iota.
  destruct (truthy (lookup "translation" o)) eqn:Ht.
  - destruct (lookup "keywords" o) as [[] |];
      try (rewrite lookup_obj_set; simpl String.eqb; cbv iota);
      (destruct (lookup "translation" o) as [x |]; [| discriminate];
       unfold js_or; rewrite Ht; reflexivity).
  - assert (Hj : js_or (lookup "translation" o) empty_str = empty_str).
    { destruct (lookup "translation" o) as [x |]; [| reflexivity].
      unfold js_or. rewrite Ht. reflexivity. }
    rewrite Hj.
    destruct (lookup "keywords" (obj_set "translation" empty_str o)) as [[] |];
      repeat (rewrite lookup_obj_set; simpl String.eqb; cbv iota); reflexivity.
Qed.

Lemma translation_falsy_defaulted_witness :
  exists r, parse_ai_text (sq "{'translation':0}") = inr r /\
  exists c o,
    brace_match (clean_text (sq "{'translation':0}")) = Some c /\
    json_parse c = Some (JObj o) /\
    get r "translation" = Some (js_or (lookup "translation" o) empty_str).
Proof.
  exists (JObj [("translation", empty_str); ("keywords", JArr [])]).
  split.
  - vm_compute. reflexivity.
  - apply translation_falsy_defaulted. vm_compute. reflexivity.
Defined.

(** C2 as stated fails: a truthy non-string [translation] is returned as it
    is, here the number 5. *)
Lemma translation_number_kept :
  parse_ai_text (sq "{'translation':5}")
    = inr (JObj [("translation", JNum 5 0); ("keywords", JArr [])]) /\
  (forall s, get (JObj [("translation", JNum 5 0); ("keywords", JArr [])]) "translation"
             <> Some (JStr s)).
Proof.
  split.
  - vm_compute. reflexivity.
  - intros s. discriminate.
Qed.

(* ------------------------------------------------------------------ *)
(** * Failures of the normaliser and of the adapters *)

(** C1 fails on the code: a [keywords] array holding [null] parses, yet the
    mapping reads [k.word] on [null], and the resulting [TypeError] is
    reported as a parse failure. *)
Lemma null_keyword_rejected :
  brace_match (clean_text (sq "{'keywords':[null]}")) = Some (sq "{'keywords':[null]}") /\
  json_parse (sq "{'keywords':[null]}") = Some (JObj [("keywords", JArr [JNull])]) /\
  parse_ai_text (sq "{'keywords':[null]}")
    = inl (Error "Failed to parse AI response: Cannot read properties of null (reading 'word')").
Proof. vm_compute. repeat split. Qed.

Lemma read_value :
  forall v k, v <> JNull -> read (Some v) k = inr (get v k).
Proof. intros v k H. destruct v; try reflexivity. contradiction. Qed.

(** The success branch of an adapter once the envelope is read. *)
Ltac adapter_success Hn Hok Hj Hd Ht :=
  unfold mbind, fetch, lift, response_json;
  rewrite Hn; cbv beta iota; rewrite Hok; cbv beta iota delta [negb];
  rewrite Hj; cbv beta iota; rewrite (read_value _ _ Hd); cbv beta iota zeta;
  rewrite Ht; cbv beta iota delta [negb]; reflexivity.

(** C8 fails on the code: a successful response whose body is [null]
    parses and holds no text, yet each adapter reads [data.candidates] or
    [data.choices] without [?.] and throws a [TypeError] instead of
    [No response from <provider>], after its one outbound call. *)
Theorem null_envelope_type_error :
  forall (k md : string) (prompt : jsval) (st : Z),
    let net := fun _ : call => Some (mk_response true st "null") in
    callGemini net (Some (JStr k)) (Some (JStr md)) prompt []
    = (inl (TypeError "Cannot read properties of null (reading 'candidates')"),
       [gemini_call (Some (JStr k)) (Some (JStr md)) prompt]) /\
    callDeepSeek net (Some (JStr k)) (Some (JStr md)) prompt []
    = (inl (TypeError "Cannot read properties of null (reading 'choices')"),
       [deepseek_call (Some (JStr k)) (Some (JStr md)) prompt]) /\
    callOpenRouter net (Some (JStr k)) (Some (JStr md)) prompt []
    = (inl (TypeError "Cannot read properties of null (reading 'choices')"),
       [openrouter_call (Some (JStr k)) (Some (JStr md)) prompt]).
Proof. intros k md prompt st net. split; [| split]; reflexivity. Qed.

(** After a successful response whose body parses to a JSON value other
    than [null], a falsy value (absent, null, false, 0 or the empty string)
    at the provider's text path makes the adapter throw
    [No response from <provider>], after its one outbound call. The
    [apiKey] and [model] are values that [ToString] converts, as they are
    once the request has been sent. *)
Theorem no_text_no_response :
  forall (net : call -> option http_response) (apiKey model prompt : jsval)
         (resp : http_response) (data : json),
    (exists a, to_string apiKey = inr a) ->
    (exists m, to_string model = inr m) ->
    ok resp = true ->
    json_parse (body_text resp) = Some data ->
    data <> JNull ->
    (net (gemini_call apiKey model prompt) = Some resp ->
     truthy (oread (oread (oread (oread (oread (get data "candidates") "0") "content")
                              "parts") "0") "text") = false ->
     callGemini net apiKey model prompt []
     = (inl (Error "No response from Gemini"), [gemini_call apiKey model prompt])) /\
    (net (deepseek_call apiKey model prompt) = Some resp ->
     truthy (oread (oread (oread (get data "choices") "0") "message") "content") = false ->
     callDeepSeek net apiKey model prompt []
     = (inl (Error "No response from DeepSeek"), [deepseek_call apiKey model prompt])) /\
    (net (openrouter_call apiKey model prompt) = Some resp ->
     truthy (oread (oread (oread (get data "choices") "0") "message") "content") = false ->
     callOpenRouter net apiKey model prompt []
     = (inl (Error "No response from OpenRouter"), [openrouter_call apiKey model prompt])).
Proof.
  intros net apiKey model prompt resp data _ _ Hok Hj Hd.
  split; [| split]; intros Hn Ht.
  - unfold callGemini. adapter_success Hn Hok Hj Hd Ht.
  - unfold callDeepSeek. adapter_success Hn Hok Hj Hd Ht.
  - unfold callOpenRouter. adapter_success Hn Hok Hj Hd Ht.
Qed.

Lemma no_text_no_response_witness :
  callGemini (fun _ => Some empty_envelope) None None None []
  = (inl (Error "No response from Gemini"), [gemini_call None None None]) /\
  callDeepSeek (fun _ => Some empty_envelope) None None None []
  = (inl (Error "No response from DeepSeek"), [deepseek_call None None None]) /\
  callOpenRouter (fun _ => Some empty_envelope) None None None []
  = (inl (Error "No response from OpenRouter"), [openrouter_call None None None]).
Proof.
  destruct (no_text_no_response (fun _ => Some empty_envelope) None None None
              empty_envelope (JObj [])) as (Hg & Hs & Ho);
    [eexists; reflexivity | eexists; reflexivity | reflexivity
    | vm_compute; reflexivity | discriminate |].
  split; [| split]; [apply Hg | apply Hs | apply Ho]; reflexivity.
Defined.

(* ------------------------------------------------------------------ *)
(** * The candidate text *)

Lemma sapp_assoc : forall a b c : string, (a ++ b) ++ c = a ++ (b ++ c).
Proof. induction a as [| x a IH]; intros; simpl; [reflexivity | rewrite IH; reflexivity]. Qed.

Lemma sapp_nil_r : forall a : string, a ++ EmptyString = a.
Proof. induction a as [| x a IH]; simpl; [reflexivity | rewrite IH; reflexivity]. Qed.

Lemma no_char_app : forall p a b, no_char p (a ++ b) = no_char p a && no_char p b.
Proof.
  intros p a b. induction a as [| x a IH]; simpl; [reflexivity |].
  rewrite IH, andb_assoc. reflexivity.
Qed.

Lemma ws_not_open : forall c, is_js_ws c = true -> is_open c = false.
Proof. intros [[] [] [] [] [] [] [] []]; vm_compute; congruence. Qed.

Lemma ws_not_close : forall c, is_js_ws c = true -> is_close c = false.
Proof. intros [[] [] [] [] [] [] [] []]; vm_compute; congruence. Qed.

Lemma tick_not_close : forall c, is_tick c = true -> is_close c = false.
Proof. intros [[] [] [] [] [] [] [] []]; vm_compute; congruence. Qed.

(** [/\{[\s\S]*\}/] skips a prefix without an opening brace ... *)
Lemma brace_match_app_l :
  forall p s, no_char is_open p = true -> brace_match (p ++ s) = brace_match s.
Proof.
  induction p as [| c p IH]; intros s H; simpl in *; [reflexivity |].
  apply andb_prop in H as [H1 H2]. apply negb_true_iff in H1.
  rewrite H1. apply IH. exact H2.
Qed.

Lemma greedy_close_none :
  forall q, no_char is_close q = true -> greedy_close q = None.
Proof.
  induction q as [| c q IH]; intros H; simpl in *; [reflexivity |].
  apply andb_prop in H as [H1 H2]. apply negb_true_iff in H1.
  rewrite IH by exact H2. rewrite H1. reflexivity.
Qed.

Lemma greedy_close_app_r :
  forall s q, no_char is_close q = true -> greedy_close (s ++ q) = greedy_close s.
Proof.
  induction s as [| c s IH]; intros q H; simpl.
  - apply greedy_close_none. exact H.
  - rewrite IH by exact H. reflexivity.
Qed.

Lemma brace_match_none :
  forall q, no_char is_close q = true -> brace_match q = None.
Proof.
  induction q as [| c q IH]; intros H; simpl in *; [reflexivity |].
  apply andb_prop in H as [_ H2].
  rewrite greedy_close_none by exact H2. rewrite IH by exact H2.
  destruct (is_open c); reflexivity.
Qed.

(** ... and a suffix without a closing brace. *)
Lemma brace_match_app_r :
  forall s q, no_char is_close q = true -> brace_match (s ++ q) = brace_match s.
Proof.
  induction s as [| c s IH]; intros q H; simpl.
  - apply brace_match_none. exact H.
  - rewrite greedy_close_app_r, IH by exact H. reflexivity.
Qed.

Lemma brace_match_ltrim : forall s, brace_match (ltrim s) = brace_match s.
Proof.
  induction s as [| c s IH]; simpl; [reflexivity |].
  destruct (is_js_ws c) eqn:E; [| reflexivity].
  rewrite IH. simpl. rewrite (ws_not_open c E). reflexivity.
Qed.

Lemma ltrim_split :
  forall s, exists w, s = w ++ ltrim s /\ no_char is_close w = true.
Proof.
  induction s as [| c s IH]; simpl.
  - exists EmptyString. split; reflexivity.
  - destruct (is_js_ws c) eqn:E.
    + destruct IH as (w & Hw & Hn). exists (String c w). simpl.
      rewrite <- Hw, (ws_not_close c E). split; [reflexivity | exact Hn].
    + exists EmptyString. split; reflexivity.
Qed.

Lemma rev_str_acc : forall s acc, rev_str s acc = rev_str s EmptyString ++ acc.
Proof.
  induction s as [| c s IH]; intros acc; simpl; [reflexivity |].
  rewrite IH, (IH (String c EmptyString)), sapp_assoc. reflexivity.
Qed.

Lemma rev_str_app :
  forall a b, rev_str (a ++ b) EmptyString = rev_str b EmptyString ++ rev_str a EmptyString.
Proof.
  induction a as [| c a IH]; intros b; simpl.
  - rewrite sapp_nil_r. reflexivity.
  - rewrite (rev_str_acc (a ++ b)), (rev_str_acc a (String c EmptyString)), IH, sapp_assoc.
    reflexivity.
Qed.

Lemma rev_str_involutive : forall s, rev_str (rev_str s EmptyString) EmptyString = s.
Proof.
  induction s as [| c s IH]; simpl; [reflexivity |].
  rewrite (rev_str_acc s (String c EmptyString)), rev_str_app, IH. reflexivity.
Qed.

Lemma no_char_rev : forall p s, no_char p (rev_str s EmptyString) = no_char p s.
Proof.
  intros p s. induction s as [| c s IH]; simpl; [reflexivity |].
  rewrite (rev_str_acc s (String c EmptyString)), no_char_app, IH. simpl. rewrite andb_true_r, andb_comm. reflexivity.
Qed.

Lemma brace_match_rtrim : forall s, brace_match (rtrim s) = brace_match s.
Proof.
  intros s. unfold rtrim.
  destruct (ltrim_split (rev_str s EmptyString)) as (w & Hw & Hn).
  assert (Hs : s = rev_str (ltrim (rev_str s EmptyString)) EmptyString ++ rev_str w EmptyString).
  { rewrite <- rev_str_app, <- Hw, rev_str_involutive. reflexivity. }
  rewrite Hs at 2. rewrite brace_match_app_r; [reflexivity |].
  rewrite no_char_rev. exact Hn.
Qed.

Lemma brace_match_trim : forall s, brace_match (trim s) = brace_match s.
Proof. intros s. unfold trim. rewrite brace_match_rtrim, brace_match_ltrim. reflexivity. Qed.

Lemma brace_match_not_open :
  forall c s, is_open c = false -> brace_match (String c s) = brace_match s.
Proof. intros c s H. simpl. rewrite H. reflexivity. Qed.

Lemma ci_char_not_open :
  forall b l, ci_char b l = true -> Nat.eqb l 123 = false -> Nat.eqb (l - 32) 123 = false ->
    is_open b = false.
Proof.
  intros b l H H1 H2. unfold ci_char in H. unfold is_open, is_char.
  apply orb_prop in H as [H | H]; apply Nat.eqb_eq in H; rewrite H; assumption.
Qed.

Lemma tick_not_open : forall c, is_tick c = true -> is_open c = false.
Proof. intros c H. unfold is_tick, is_char in H. apply Nat.eqb_eq in H.
  unfold is_open, is_char. rewrite H. reflexivity. Qed.

Ltac drop_front :=
  repeat match goal with
  | H : is_tick ?c = true |- context [brace_match (String ?c _)] =>
      rewrite (brace_match_not_open c _ (tick_not_open c H))
  | H : ci_char ?c ?l = true |- context [brace_match (String ?c _)] =>
      rewrite (brace_match_not_open c _ (ci_char_not_open c l H eq_refl eq_refl))
  end.

Lemma brace_match_strip_fence_json :
  forall s, brace_match (strip_fence_json s) = brace_match s.
Proof.
  intros s. unfold strip_fence_json.
  destruct s as [| a [| b [| c [| j [| s' [| o [| n r]]]]]]]; try reflexivity.
  destruct (is_tick a) eqn:Ha, (is_tick b) eqn:Hb, (is_tick c) eqn:Hc,
           (ci_char j 106) eqn:Hj, (ci_char s' 115) eqn:Hs, (ci_char o 111) eqn:Ho,
           (ci_char n 110) eqn:Hn; simpl andb; cbv iota; try reflexivity.
  rewrite brace_match_ltrim. drop_front. reflexivity.
Qed.

Lemma brace_match_strip_fence :
  forall s, brace_match (strip_fence s) = brace_match s.
Proof.
  intros s. unfold strip_fence.
  destruct s as [| a [| b [| c r]]]; try reflexivity.
  destruct (is_tick a) eqn:Ha, (is_tick b) eqn:Hb, (is_tick c) eqn:Hc;
    simpl andb; cbv iota; try reflexivity.
  rewrite brace_match_ltrim. drop_front. reflexivity.
Qed.

Lemma ws_fence_tail_no_close :
  forall s, ws_fence_tail s = true -> no_char is_close s = true.
Proof.
  induction s as [| c s IH]; intros H; [reflexivity |].
  change (String.eqb (String c s) "```" || (is_js_ws c && ws_fence_tail s) = true) in H.
  apply orb_prop in H as [H | H].
  - apply String.eqb_eq in H. rewrite H. reflexivity.
  - apply andb_prop in H as [H1 H2]. simpl.
    rewrite (ws_not_close c H1), IH by exact H2. reflexivity.
Qed.

Lemma strip_fence_end_split :
  forall s, exists q, s = strip_fence_end s ++ q /\ no_char is_close q = true.
Proof.
  induction s as [| c s IH].
  - exists EmptyString. split; reflexivity.
  - change (strip_fence_end (String c s)) with
      (if ws_fence_tail (String c s) then EmptyString else String c (strip_fence_end s)).
    destruct (ws_fence_tail (String c s)) eqn:E.
    + exists (String c s). split; [reflexivity |]. apply ws_fence_tail_no_close. exact E.
    + destruct IH as (q & Hq & Hn). exists q. simpl. rewrite <- Hq. split; [reflexivity | exact Hn].
Qed.

Lemma brace_match_strip_fence_end :
  forall s, brace_match (strip_fence_end s) = brace_match s.
Proof.
  intros s. destruct (strip_fence_end_split s) as (q & Hq & Hn).
  rewrite Hq at 2. rewrite brace_match_app_r by exact Hn. reflexivity.
Qed.

Lemma brace_match_clean_text :
  forall text, brace_match (clean_text text) = brace_match text.
Proof.
  intros text. unfold clean_text.
  rewrite brace_match_strip_fence_end, brace_match_strip_fence,
    brace_match_strip_fence_json, brace_match_trim. reflexivity.
Qed.

Lemma after_prefix_ci_brace :
  forall w s r, ci_not_open w = true -> after_prefix_ci w s = Some r ->
    brace_match s = brace_match r.
Proof.
  induction w as [| a w IH]; intros s r Hw H.
  - simpl in H. injection H as <-. reflexivity.
  - destruct s as [| b s]; [discriminate |].
    unfold ci_not_open in Hw. simpl in Hw, H.
    apply andb_prop in Hw as [Ha Hw]. apply negb_true_iff, orb_false_iff in Ha as [Ha1 Ha2].
    destruct (ci_char b (code a)) eqn:Hb; [| discriminate].
    rewrite (brace_match_not_open b s (ci_char_not_open b (code a) Hb Ha1 Ha2)).
    apply (IH s r Hw H).
Qed.

Lemma after_prefix_brace :
  forall w s r, no_char is_open w = true -> after_prefix w s = Some r ->
    brace_match s = brace_match r.
Proof.
  induction w as [| a w IH]; intros s r Hw H.
  - simpl in H. injection H as <-. reflexivity.
  - destruct s as [| b s]; [discriminate |].
    simpl in Hw, H. apply andb_prop in Hw as [Ha Hw]. apply negb_true_iff in Ha.
    destruct (Ascii.eqb a b) eqn:Hb; [| discriminate].
    apply Ascii.eqb_eq in Hb. subst b.
    rewrite (brace_match_not_open a s Ha). apply (IH s r Hw H).
Qed.

Lemma brace_match_spec_strip_leading :
  forall s, brace_match (spec_strip_leading s) = brace_match s.
Proof.
  intros s. unfold spec_strip_leading.
  destruct (after_prefix_ci "```json" s) as [r |] eqn:E.
  - symmetry. apply (after_prefix_ci_brace "```json" _ _ eq_refl E).
  - destruct (after_prefix "```" s) as [r |] eqn:E2; [| reflexivity].
    symmetry. apply (after_prefix_brace "```" _ _ eq_refl E2).
Qed.

Lemma substring_full : forall s, substring 0 (String.length s) s = s.
Proof. induction s as [| c s IH]; simpl; [reflexivity | rewrite IH; reflexivity]. Qed.

Lemma substring_split :
  forall s k, k <= String.length s ->
    s = substring 0 k s ++ substring k (String.length s - k) s.
Proof.
  induction s as [| c s IH]; intros k Hk.
  - destruct k; reflexivity.
  - destruct k as [| k]; simpl.
    + rewrite substring_full. reflexivity.
    + simpl in Hk. rewrite <- IH by lia. reflexivity.
Qed.

Lemma brace_match_spec_strip_trailing :
  forall s, brace_match (spec_strip_trailing s) = brace_match s.
Proof.
  intros s. unfold spec_strip_trailing.
  destruct (Nat.leb 3 (String.length s)) eqn:E1; simpl andb; cbv iota; [| reflexivity].
  destruct (String.eqb (substring (String.length s - 3) 3 s) "```") eqn:E2; [| reflexivity].
  apply Nat.leb_le in E1. apply String.eqb_eq in E2.
  pose proof (substring_split s (String.length s - 3) ltac:(lia)) as Hs.
  replace (String.length s - (String.length s - 3)) with 3 in Hs by lia.
  rewrite E2 in Hs.
  set (a := substring 0 (String.length s - 3) s) in *.
  rewrite Hs at 1. rewrite brace_match_app_r by reflexivity. reflexivity.
Qed.

Lemma greedy_close_last :
  forall r, greedy_close r =
    match last_index is_close r with
    | Some j => Some (substring 0 (S j) r)
    | None => None
    end.
Proof.
  induction r as [| c r IH]; simpl; [reflexivity |].
  rewrite IH. destruct (last_index is_close r); [reflexivity |].
  destruct (is_close c); [destruct r |]; reflexivity.
Qed.

Lemma open_not_close : forall c, is_open c = true -> is_close c = false.
Proof.
  intros c H. unfold is_open, is_char in H. apply Nat.eqb_eq in H.
  unfold is_close, is_char. rewrite H. reflexivity.
Qed.

Lemma spec_span_no_last :
  forall s, last_index is_close s = None -> spec_span s = None.
Proof.
  intros s H. unfold spec_span. rewrite H. destruct (first_index is_open s); reflexivity.
Qed.

(** The leftmost, greedy match of [/\{[\s\S]*\}/] is the text from the
    first opening brace through the last closing brace. *)
Lemma brace_match_spec_span : forall s, brace_match s = spec_span s.
Proof.
  induction s as [| c r IH]; [reflexivity |].
  destruct (is_open c) eqn:Ho.
  - simpl. rewrite Ho, greedy_close_last. unfold spec_span. simpl.
    rewrite Ho, (open_not_close c Ho).
    destruct (last_index is_close r) as [j |] eqn:Hl; [reflexivity |].
    rewrite IH. apply spec_span_no_last. exact Hl.
  - rewrite (brace_match_not_open c r Ho), IH. unfold spec_span. simpl. rewrite Ho.
    destruct (first_index is_open r) as [i |]; simpl; [| reflexivity].
    destruct (last_index is_close r) as [j |]; simpl; [reflexivity |].
    destruct (is_close c); reflexivity.
Qed.

(** C7: the normaliser trims the text, strips one leading [```json] (any
    case) or bare [```] fence and one trailing [```] fence, and takes the
    text from the first opening brace through the last closing brace as the
    candidate; without such a span it fails with [Could not parse AI
    response as JSON]. The code's [trim], three [replace] calls (which may
    strip both leading fences) and [match] give the same outcome on every
    input. *)
Theorem candidate_refines_spec :
  forall text,
    parse_ai_text text =
    match spec_candidate text with
    | None => throw (Error "Could not parse AI response as JSON")
    | Some c => parse_candidate c
    end.
Proof.
  intros text. unfold parse_ai_text, spec_candidate.
  rewrite <- brace_match_spec_span, brace_match_spec_strip_trailing,
    brace_match_spec_strip_leading, brace_match_trim, brace_match_clean_text.
  reflexivity.
Qed.

(** C4 fails on the code: a non-success response is reported with its error
    message when the body is the provider's error object (all three
    adapters answer 500 with [bad key]); but when the error body is not
    JSON, Gemini and DeepSeek let the [SyntaxError] of [response.json()]
    escape instead of falling back to their generic message, while
    OpenRouter falls back to [OpenRouter error 502]. *)
Lemma unparsable_error_body_escapes :
  fst (dispatch (fun _ => Some bad_key_response) (provider_request "gemini"))
    = inr (message_reply 500 "bad key") /\
  fst (dispatch (fun _ => Some bad_key_response) (provider_request "deepseek"))
    = inr (message_reply 500 "bad key") /\
  fst (dispatch (fun _ => Some bad_key_response) (provider_request "openrouter"))
    = inr (message_reply 500 "bad key") /\
  fst (dispatch (fun _ => Some bad_gateway) (provider_request "gemini"))
    = inr (error_reply SyntaxError) /\
  fst (dispatch (fun _ => Some bad_gateway) (provider_request "deepseek"))
    = inr (error_reply SyntaxError) /\
  fst (dispatch (fun _ => Some bad_gateway) (provider_request "openrouter"))
    = inr (message_reply 500 "OpenRouter error 502") /\
  exn_message SyntaxError <> "Gemini API request failed" /\
  exn_message SyntaxError <> "DeepSeek API request failed".
Proof.
  vm_compute. repeat split; discriminate.
Qed.

Lemma parse_members_obj :
  forall f acc s v r, parse_members f acc s = Some (v, r) -> exists o, v = JObj o.
Proof.
  induction f as [| f IH]; intros acc s v r H; [discriminate |].
  simpl in H. destruct s as [| c s]; [discriminate |].
  destruct (is_char c 34); [| discriminate].
  destruct (parse_str_body s) as [[k r1] |]; [| discriminate].
  destruct (skip_ws r1) as [| c1 r2]; [discriminate |].
  destruct (is_char c1 58); [| discriminate].
  destruct (parse_value f r2) as [[x r3] |]; [| discriminate].
  destruct (skip_ws r3) as [| c3 r4]; [discriminate |].
  destruct (is_char c3 44); [eapply IH; exact H |].
  destruct (is_close c3); [| discriminate].
  injection H as <- _. eexists; reflexivity.
Qed.

Lemma parse_value_open :
  forall f c r x rest, is_open c = true -> parse_value f (String c r) = Some (x, rest) ->
  exists o, x = JObj o.
Proof.
  intros [| f] c r x rest Hc Hp; [discriminate |].
  assert (Hw : is_json_ws c = false).
  { unfold is_open, is_char in Hc. apply Nat.eqb_eq in Hc.
    unfold is_json_ws. rewrite Hc. reflexivity. }
  simpl in Hp. rewrite Hw, Hc in Hp.
  destruct (skip_ws r) as [| c' r']; [discriminate |].
  destruct (is_close c'); [injection Hp as <- _; eexists; reflexivity |].
  eapply parse_members_obj; exact Hp.
Qed.

(** The text [brace_match] returns starts with an opening brace, so
    [JSON.parse] of it fails or yields an object. *)
Lemma json_parse_brace_object :
  forall c r v, is_open c = true -> json_parse (String c r) = Some v ->
  exists o, v = JObj o.
Proof.
  intros c r v Hc H. unfold json_parse in H.
  destruct (parse_value (S (String.length (String c r))) (String c r)) as [[x rest] |] eqn:Hp;
    [| discriminate].
  destruct (skip_ws rest); [| discriminate].
  injection H as <-.
  eapply parse_value_open; eassumption.
Qed.

Lemma sapp_length : forall a b, String.length (a ++ b) = String.length a + String.length b.
Proof. induction a as [| c a IH]; intros b; simpl; [reflexivity | rewrite IH; reflexivity]. Qed.

Lemma escape_char_body :
  forall c t, parse_str_body (escape_char c ++ t) =
    match parse_str_body t with Some (x, rest) => Some (String c x, rest) | None => None end.
Proof. intros [[] [] [] [] [] [] [] []] t; reflexivity. Qed.

Lemma escape_body : forall s t, parse_str_body (escape s ++ String dq t) = Some (s, t).
Proof.
  induction s as [| c s IH]; intros t; [reflexivity |].
  cbn [escape]. rewrite sapp_assoc, escape_char_body, IH. reflexivity.
Qed.

Lemma quote_app : forall s t, quote s ++ t = String dq (escape s ++ String dq t).
Proof. intros s t. unfold quote. cbn [append]. rewrite sapp_assoc. reflexivity. Qed.

Lemma skip_ws_quote : forall s t, skip_ws (quote s ++ t) = quote s ++ t.
Proof. intros s t. rewrite quote_app. reflexivity. Qed.

Lemma value_string : forall f s t, parse_value (S f) (quote s ++ t) = Some (JStr s, t).
Proof. intros f s t. rewrite quote_app. simpl. rewrite escape_body. reflexivity. Qed.

Lemma members_step :
  forall f acc k X v R,
  parse_value f X = Some (v, String ","%char R) ->
  parse_members (S f) acc (quote k ++ String ":"%char X) =
  parse_members f (obj_set k v acc) (skip_ws R).
Proof.
  intros f acc k X v R H. rewrite quote_app. simpl. rewrite escape_body. simpl.
  rewrite H. reflexivity.
Qed.

Lemma members_last :
  forall f acc k X v R,
  parse_value f X = Some (v, String "}"%char R) ->
  parse_members (S f) acc (quote k ++ String ":"%char X) = Some (JObj (obj_set k v acc), R).
Proof.
  intros f acc k X v R H. rewrite quote_app. simpl. rewrite escape_body. simpl.
  rewrite H. reflexivity.
Qed.

Lemma value_object :
  forall f k Y, parse_value (S (S f)) (String "{"%char (quote k ++ Y)) =
                parse_members (S f) [] (quote k ++ Y).
Proof. intros f k Y. rewrite quote_app. reflexivity. Qed.

Lemma elements_step :
  forall f acc X v R, parse_value f X = Some (v, String ","%char R) ->
  parse_elements (S f) acc X = parse_elements f (app acc [v]) R.
Proof. intros f acc X v R H. simpl. rewrite H. reflexivity. Qed.

Lemma elements_last :
  forall f acc X v R, parse_value f X = Some (v, String "]"%char R) ->
  parse_elements (S f) acc X = Some (JArr (app acc [v]), R).
Proof. intros f acc X v R H. simpl. rewrite H. reflexivity. Qed.

Lemma value_array :
  forall f c Y, is_json_ws c = false -> is_char c 93 = false ->
  parse_value (S (S f)) (String "["%char (String c Y)) = parse_elements (S f) [] (String c Y).
Proof. intros f c Y H1 H2. simpl. rewrite H1, H2. reflexivity. Qed.

Lemma stringify_obj5 :
  forall k1 v1 k2 v2 k3 v3 k4 v4 k5 v5,
  stringify (JObj [(k1, v1); (k2, v2); (k3, v3); (k4, v4); (k5, v5)]) =
  "{" ++ (quote k1 ++ ":" ++ stringify v1 ++ "," ++ quote k2 ++ ":" ++ stringify v2 ++ "," ++
  quote k3 ++ ":" ++ stringify v3 ++ "," ++ quote k4 ++ ":" ++ stringify v4 ++ "," ++
  quote k5 ++ ":" ++ stringify v5) ++ "}".
Proof. reflexivity. Qed.

Lemma stringify_obj2 :
  forall k1 v1 k2 v2,
  stringify (JObj [(k1, v1); (k2, v2)]) =
  "{" ++ (quote k1 ++ ":" ++ stringify v1 ++ "," ++ quote k2 ++ ":" ++ stringify v2) ++ "}".
Proof. reflexivity. Qed.

Lemma stringify_arr : forall l, stringify (JArr l) = "[" ++ elems_text l ++ "]".
Proof. reflexivity. Qed.

Lemma entry_text :
  forall k R, stringify (entry_json k) ++ R =
  String "{"%char (quote "word" ++ String ":"%char (quote (word k) ++ String ","%char (
    quote "phonetic" ++ String ":"%char (quote (phonetic k) ++ String ","%char (
    quote "roots" ++ String ":"%char (quote (roots k) ++ String ","%char (
    quote "origin" ++ String ":"%char (quote (origin k) ++ String ","%char (
    quote "meaning" ++ String ":"%char (quote (meaning k) ++ String "}"%char R)))))))))).
Proof.
  intros k R. unfold entry_json. rewrite stringify_obj5.
  cbn [stringify]. rewrite !sapp_assoc. reflexivity.
Qed.

Lemma entry_parse :
  forall k f R, 7 <= f -> parse_value f (stringify (entry_json k) ++ R) = Some (entry_json k, R).
Proof.
  intros k f R Hf. replace f with (S (S (S (S (S (S (S (f - 7)))))))) by lia.
  rewrite entry_text, value_object.
  erewrite members_step by apply value_string. rewrite skip_ws_quote.
  erewrite members_step by apply value_string. rewrite skip_ws_quote.
  erewrite members_step by apply value_string. rewrite skip_ws_quote.
  erewrite members_step by apply value_string. rewrite skip_ws_quote.
  erewrite members_last by apply value_string.
  reflexivity.
Qed.

Lemma elems_text_cons :
  forall x y l, elems_text (x :: y :: l) = stringify x ++ "," ++ elems_text (y :: l).
Proof. reflexivity. Qed.

Lemma elements_parse :
  forall ks acc f R, ks <> [] -> length ks + 7 <= f ->
  parse_elements f acc (elems_text (map entry_json ks) ++ String "]"%char R) =
  Some (JArr (app acc (map entry_json ks)), R).
Proof.
  induction ks as [| k ks IH]; intros acc f R Hne Hf; [congruence |].
  destruct f as [| f]; [simpl in Hf; lia |].
  destruct ks as [| k' ks].
  - cbn [map elems_text]. erewrite elements_last by (apply entry_parse; simpl in Hf; lia).
    reflexivity.
  - cbn [map]. rewrite elems_text_cons, sapp_assoc.
    erewrite elements_step by (apply entry_parse; simpl in Hf; lia).
    rewrite IH by (try discriminate; simpl in *; lia).
    rewrite <- app_assoc. reflexivity.
Qed.

Lemma entry_head :
  forall k ks Z, exists Y, elems_text (map entry_json (k :: ks)) ++ Z = String "{"%char Y.
Proof.
  intros k [| k' ks] Z; cbn [map].
  - cbn [elems_text]. rewrite entry_text. eexists; reflexivity.
  - rewrite elems_text_cons, sapp_assoc, entry_text. eexists; reflexivity.
Qed.

Lemma array_parse :
  forall ks f R, length ks + 9 <= f ->
  parse_value f (stringify (JArr (map entry_json ks)) ++ R) = Some (JArr (map entry_json ks), R).
Proof.
  intros ks f R Hf. replace f with (S (S (f - 2))) by lia.
  rewrite stringify_arr. destruct ks as [| k ks]; [reflexivity |].
  cbn [append]. rewrite sapp_assoc. cbn [append].
  destruct (entry_head k ks (String "]"%char R)) as [Y HY].
  rewrite HY, value_array by reflexivity. rewrite <- HY.
  apply elements_parse; [discriminate | simpl in *; lia].
Qed.

Lemma result_text :
  forall r R, stringify (result_json r) ++ R =
  String "{"%char (quote "translation" ++ String ":"%char (quote (translation r) ++ String ","%char (
    quote "keywords" ++ String ":"%char (stringify (JArr (map entry_json (keywords r))) ++
    String "}"%char R)))).
Proof.
  intros r R. unfold result_json. rewrite stringify_obj2.
  cbn [stringify]. rewrite !sapp_assoc. reflexivity.
Qed.

Lemma result_parse :
  forall r f R, length (keywords r) + 12 <= f ->
  parse_value f (stringify (result_json r) ++ R) = Some (result_json r, R).
Proof.
  intros r f R Hf. replace f with (S (S (S (f - 3)))) by lia.
  rewrite result_text, value_object.
  erewrite members_step by apply value_string. rewrite skip_ws_quote.
  erewrite members_last by (apply array_parse; lia).
  reflexivity.
Qed.

Lemma result_json_parse :
  forall r, canonical r -> json_parse (stringify (result_json r)) = Some (result_json r).
Proof.
  intros r Hc. unfold canonical in Hc. unfold json_parse.
  pose proof (result_text r EmptyString) as Ht. rewrite sapp_nil_r in Ht.
  assert (Hl : 16 <= String.length (stringify (result_json r))).
  { rewrite Ht. cbn [String.length]. rewrite !sapp_length.
    change (String.length (quote "translation")) with 13. cbn [String.length].
    rewrite !sapp_length. cbn [String.length]. lia. }
  pose proof (result_parse r (S (String.length (stringify (result_json r)))) EmptyString) as Hp.
  rewrite sapp_nil_r in Hp. rewrite Hp by lia. reflexivity.
Qed.

Lemma greedy_close_brace :
  forall Y, greedy_close (Y ++ "}") = Some (Y ++ "}").
Proof.
  induction Y as [| c Y IH]; [reflexivity |]. simpl. rewrite IH. reflexivity.
Qed.

Lemma result_brace :
  forall r, brace_match (stringify (result_json r)) = Some (stringify (result_json r)).
Proof.
  intros r.
  assert (He : stringify (result_json r) =
    String "{"%char ((quote "translation" ++ ":" ++ quote (translation r) ++ "," ++
      quote "keywords" ++ ":" ++ stringify (JArr (map entry_json (keywords r)))) ++ "}")).
  { unfold result_json. rewrite stringify_obj2. reflexivity. }
  rewrite He. simpl. rewrite greedy_close_brace. reflexivity.
Qed.

Lemma js_or_str : forall w, js_or (Some (JStr w)) empty_str = JStr w.
Proof. intros [| c w]; reflexivity. Qed.

Lemma coerce_keyword_entry : forall k, coerce_keyword (entry_json k) = inr (entry_json k).
Proof.
  intros [w p r o m]. unfold coerce_keyword, entry_json. cbn -[js_or].
  rewrite !js_or_str. reflexivity.
Qed.

Lemma mapM_entries :
  forall ks, mapM coerce_keyword (map entry_json ks) = inr (map entry_json ks).
Proof.
  induction ks as [| k ks IH]; [reflexivity |].
  cbn [map mapM]. rewrite coerce_keyword_entry. simpl. rewrite IH. reflexivity.
Qed.

Lemma coerce_result :
  forall r, canonical r ->
  coerce [("translation", JStr (translation r)); ("keywords", JArr (map entry_json (keywords r)))]
  = inr (result_json r).
Proof.
  intros [tr ks] Hc. unfold canonical in Hc. simpl in Hc. unfold coerce. cbn [translation keywords].
  assert (Ho1 : (if truthy (lookup "translation"
                   [("translation", JStr tr); ("keywords", JArr (map entry_json ks))])
                 then [("translation", JStr tr); ("keywords", JArr (map entry_json ks))]
                 else obj_set "translation" empty_str
                   [("translation", JStr tr); ("keywords", JArr (map entry_json ks))])
                = [("translation", JStr tr); ("keywords", JArr (map entry_json ks))]).
  { destruct tr; reflexivity. }
  rewrite Ho1. cbn -[mapM firstn map]. rewrite mapM_entries. cbn -[firstn map].
  rewrite firstn_all2 by (rewrite length_map; exact Hc). reflexivity.
Qed.

(** C9: normalizing the [JSON.stringify] text of a canonical
    AnalysisResult (string translation, at most five entries with five
    string fields each) returns that same result. *)
Theorem normalize_canonical_idempotent :
  forall r, canonical r ->
  parseAIResponse (Some (JStr (stringify (result_json r)))) = inr (result_json r).
Proof.
  intros r Hc. unfold parseAIResponse, parse_ai_text.
  rewrite brace_match_clean_text, result_brace. unfold parse_candidate.
  rewrite result_json_parse by exact Hc.
  cbv beta iota delta [result_json].
  rewrite coerce_result by exact Hc. reflexivity.
Qed.

Lemma normalize_canonical_idempotent_witness :
  canonical canonical_sample /\
  parseAIResponse (Some (JStr (stringify (result_json canonical_sample))))
  = inr (result_json canonical_sample).
Proof.
  split; [unfold canonical; simpl; lia |].
  apply (normalize_canonical_idempotent canonical_sample). unfold canonical; simpl; lia.
Defined.

(* ------------------------------------------------------------------ *)
(** * Further properties of the endpoint *)

(** A request that is not a POST is answered at once: 200 with no body
    for the CORS preflight [OPTIONS], 405 for any other method; no
    outbound call is made. *)
Theorem non_post_no_call :
  forall (net : call -> option http_response) (m : string) (b : jsval),
    m <> "POST" ->
    dispatch net (mk_request m b) =
    (inr (if String.eqb m "OPTIONS" then Ended 200
          else message_reply 405 "Method not allowed"), []).
Proof.
  intros net m b H. unfold dispatch, handler. cbn [method].
  destruct (String.eqb m "OPTIONS"); [reflexivity |].
  apply String.eqb_neq in H. rewrite H. reflexivity.
Qed.

Lemma non_post_no_call_witness :
  dispatch (fun _ => None) (mk_request "GET" None)
  = (inr (message_reply 405 "Method not allowed"), []).
Proof. apply (non_post_no_call (fun _ => None) "GET" None). discriminate. Defined.

Ltac split_matches :=
  repeat (cbv beta iota zeta;
          match goal with
          | |- context [match ?x with _ => _ end] =>
              lazymatch x with ?f _ => destruct x end
          end); cbv beta iota zeta.

Lemma callGemini_log :
  forall net a m p log, snd (callGemini net a m p log) = app log [gemini_call a m p].
Proof.
  intros net a m p log. unfold callGemini, mbind, fetch, lift, mthrow.
  split_matches; reflexivity.
Qed.

Lemma callDeepSeek_log :
  forall net a m p log, snd (callDeepSeek net a m p log) = app log [deepseek_call a m p].
Proof.
  intros net a m p log. unfold callDeepSeek, mbind, fetch, lift, mthrow.
  split_matches; reflexivity.
Qed.

Lemma callOpenRouter_log :
  forall net a m p log, snd (callOpenRouter net a m p log) = app log [openrouter_call a m p].
Proof.
  intros net a m p log. unfold callOpenRouter, mbind, mcatch, mret, fetch, lift, mthrow.
  split_matches; reflexivity.
Qed.

Lemma adapter_shape :
  forall (f : M json) c, snd (f []) = app [] [c] -> exists x, f [] = (x, [c]).
Proof. intros f c H. destruct (f []) as [x l]. simpl in H. subst l. eexists; reflexivity. Qed.

Ltac adapter_branch :=
  let x := fresh "x" in
  let Hx := fresh "Hx" in
  match goal with
  | |- context [callGemini ?n ?a ?m ?p []] =>
      destruct (adapter_shape _ _ (callGemini_log n a m p [])) as [x Hx]; rewrite Hx;
      destruct x; simpl; auto
  | |- context [callDeepSeek ?n ?a ?m ?p []] =>
      destruct (adapter_shape _ _ (callDeepSeek_log n a m p [])) as [x Hx]; rewrite Hx;
      destruct x; simpl; auto
  | |- context [callOpenRouter ?n ?a ?m ?p []] =>
      destruct (adapter_shape _ _ (callOpenRouter_log n a m p [])) as [x Hx]; rewrite Hx;
      destruct x; simpl; auto
  end.

Lemma handle_post_shape :
  forall net b,
    length (snd (handle_post net b [])) <= 1 /\
    match fst (handle_post net b []) with
    | inl _ => True
    | inr rep => reply_code rep = 200%Z \/ reply_code rep = 400%Z
    end.
Proof.
  intros net [v |]; [| simpl; auto].
  unfold handle_post, mbind, mret, mthrow.
  destruct v; cbv zeta; try (simpl; auto; fail);
    destruct (truthy _); simpl; auto;
    destruct (truthy _); simpl; auto;
    repeat (destruct (is_provider _ _); [adapter_branch |]);
    unfold lift; destruct (to_string _); simpl; auto.
Qed.

(** The handler always answers: with 200, 400, 405 or 500, never with an
    exception escaping it, and it makes at most one outbound call. *)
Theorem dispatch_always_replies :
  forall net req,
    exists rep calls,
      dispatch net req = (inr rep, calls) /\
      In (reply_code rep) [200; 400; 405; 500]%Z /\ length calls <= 1.
Proof.
  intros net req. unfold dispatch, handler.
  destruct (String.eqb (method req) "OPTIONS");
    [do 2 eexists; split; [reflexivity | split; [left; reflexivity | simpl; lia]] |].
  destruct (negb (String.eqb (method req) "POST"));
    [do 2 eexists; split;
     [reflexivity | split; [right; right; left; reflexivity | simpl; lia]] |].
  destruct (handle_post_shape net (body req)) as [Hl Hr].
  unfold mcatch, mret. destruct (handle_post net (body req) []) as [[e | rep] calls].
  - do 2 eexists; split; [reflexivity |]. simpl in *. split; [| exact Hl].
    right; right; right; left; reflexivity.
  - do 2 eexists; split; [reflexivity |]. simpl in *. split; [| exact Hl].
    destruct Hr as [-> | ->]; [left | right; left]; reflexivity.
Qed.

(** A POST without a body, or with a [null] body, fails to destructure
    [req.body] and is answered 500 with the engine's message, with no
    outbound call. *)
Theorem post_without_body :
  forall net,
    dispatch net (mk_request "POST" None)
    = (inr (message_reply 500
              "Cannot destructure property 'provider' of 'req.body' as it is undefined."), []) /\
    dispatch net (mk_request "POST" (Some JNull))
    = (inr (message_reply 500
              "Cannot destructure property 'provider' of 'req.body' as it is null."), []).
Proof. intros net. split; reflexivity. Qed.

(** A valid POST whose provider is not one of the three names, whatever
    its value (missing, [null], a number, another string, an object), makes
    no outbound call. It is answered 400 with [Unknown provider: ] followed
    by [String(provider)]; a missing provider gives
    [Unknown provider: undefined]. When that conversion throws (an object
    with its own [toString]), the [TypeError] is caught and answered 500. *)
Theorem unknown_provider_value :
  forall net o,
    truthy (lookup "apiKey" o) = true ->
    truthy (lookup "prompt" o) = true ->
    is_provider (lookup "provider" o) "gemini" = false ->
    is_provider (lookup "provider" o) "deepseek" = false ->
    is_provider (lookup "provider" o) "openrouter" = false ->
    dispatch net (post (JObj o)) =
    (inr (match to_string (lookup "provider" o) with
          | inr p => message_reply 400 ("Unknown provider: " ++ p)
          | inl e => error_reply e
          end), []).
Proof.
  intros net o Ha Hp H1 H2 H3.
  unfold dispatch, handler, post. cbn [method body].
  unfold mcatch, handle_post. cbv zeta. unfold get.
  rewrite Ha, Hp, H1, H2, H3. cbn -[to_string].
  destruct (to_string (lookup "provider" o)); reflexivity.
Qed.

Lemma unknown_provider_value_witness :
  dispatch (fun _ => None) (post (JObj [("apiKey", JStr "k"); ("prompt", JStr "p")]))
  = (inr (message_reply 400 "Unknown provider: undefined"), []) /\
  dispatch (fun _ => None)
    (post (JObj [("provider", JNum 30000000000000001 (-17));
                 ("apiKey", JStr "k"); ("prompt", JStr "p")]))
  = (inr (message_reply 400 "Unknown provider: 0.3"), []) /\
  dispatch (fun _ => None)
    (post (JObj [("provider", JObj [("toString", JNum 1 0)]);
                 ("apiKey", JStr "k"); ("prompt", JStr "p")]))
  = (inr (message_reply 500 "Cannot convert object to primitive value"), []).
Proof.
  split; [| split].
  - apply (unknown_provider_value (fun _ => None) [("apiKey", JStr "k"); ("prompt", JStr "p")]);
      reflexivity.
  - apply (unknown_provider_value (fun _ => None)
             [("provider", JNum 30000000000000001 (-17)); ("apiKey", JStr "k");
              ("prompt", JStr "p")]); reflexivity.
  - apply (unknown_provider_value (fun _ => None)
             [("provider", JObj [("toString", JNum 1 0)]); ("apiKey", JStr "k");
              ("prompt", JStr "p")]); reflexivity.
Defined.








(** Every failure of the normalizer on a string is an [Error] with one of
    its two messages: [Could not parse AI response as JSON], or
    [Failed to parse AI response: ] followed by the cause. *)
Theorem parse_ai_text_errors :
  forall text e,
    parse_ai_text text = inl e ->
    e = Error "Could not parse AI response as JSON" \/
    exists m, e = Error ("Failed to parse AI response: " ++ m).
Proof.
  intros text e H. unfold parse_ai_text in H.
  destruct (brace_match (clean_text text)) as [c |].
  - unfold parse_candidate in H.
    destruct (match json_parse c with
              | Some (JObj o) => coerce o
              | Some _ => throw (TypeError "parsed value is not an object")
              | None => throw SyntaxError
              end) as [e' | v]; unfold throw in H; [| discriminate].
    injection H as <-. right. eexists; reflexivity.
  - injection H as <-. left. reflexivity.
Qed.

Lemma parse_ai_text_errors_witness :
  parse_ai_text "no json here" = inl (Error "Could not parse AI response as JSON") /\
  (Error "Could not parse AI response as JSON" = Error "Could not parse AI response as JSON" \/
   exists m, Error "Could not parse AI response as JSON" = Error ("Failed to parse AI response: " ++ m)).
Proof.
  split; [vm_compute; reflexivity |].
  apply (parse_ai_text_errors "no json here"). vm_compute. reflexivity.
Defined.

(** Text before the JSON without an opening brace and text after it
    without a closing brace (prose, fences, whitespace) do not change what
    the normalizer returns. *)
Theorem surrounding_text_ignored :
  forall p t q,
    no_char is_open p = true -> no_char is_close q = true ->
    parse_ai_text (p ++ t ++ q) = parse_ai_text t.
Proof.
  intros p t q Hp Hq. unfold parse_ai_text.
  rewrite !brace_match_clean_text, brace_match_app_l, brace_match_app_r by assumption.
  reflexivity.
Qed.

Lemma surrounding_text_ignored_witness :
  parse_ai_text ("Here is the JSON: " ++ sq "{'translation':'x'}" ++ " Hope this helps.")
  = parse_ai_text (sq "{'translation':'x'}").
Proof. apply surrounding_text_ignored; reflexivity. Defined.

(** A text without an opening brace, or without a closing brace, fails with
    [Could not parse AI response as JSON]. *)
Theorem no_brace_span_fails :
  forall t,
    no_char is_open t = true \/ no_char is_close t = true ->
    parse_ai_text t = inl (Error "Could not parse AI response as JSON").
Proof.
  intros t H. unfold parse_ai_text. rewrite brace_match_clean_text.
  destruct H as [H | H].
  - rewrite <- (sapp_nil_r t), brace_match_app_l by exact H. reflexivity.
  - rewrite brace_match_none by exact H. reflexivity.
Qed.

Lemma no_brace_span_fails_witness :
  parse_ai_text (sq "```json {'translation':'x'") = inl (Error "Could not parse AI response as JSON").
Proof. apply no_brace_span_fails. right. reflexivity. Defined.

Lemma obj_set_same :
  forall k v o, lookup k o = Some v -> obj_set k v o = o.
Proof.
  intros k v o. induction o as [| [k0 v0] t IH]; simpl; intros H; [discriminate |].
  destruct (String.eqb_spec k k0) as [-> | E].
  - injection H as ->. reflexivity.
  - rewrite IH by exact H. reflexivity.
Qed.

Lemma obj_set_obj_set :
  forall k v1 v2 o, obj_set k v2 (obj_set k v1 o) = obj_set k v2 o.
Proof.
  intros k v1 v2 o. induction o as [| [k0 v0] t IH]; simpl.
  - rewrite String.eqb_refl. reflexivity.
  - destruct (String.eqb_spec k k0) as [-> | E]; simpl.
    + rewrite String.eqb_refl. reflexivity.
    + apply String.eqb_neq in E. rewrite E, IH. reflexivity.
Qed.

Lemma js_or_idem :
  forall v, js_or (Some (js_or v empty_str)) empty_str = js_or v empty_str.
Proof.
  intros [x |]; [| reflexivity]. unfold js_or at 2 3.
  destruct (truthy (Some x)) eqn:E; [| reflexivity].
  unfold js_or. rewrite E. reflexivity.
Qed.

Lemma mapM_keyword_of :
  forall l, mapM coerce_keyword (map keyword_of l) = inr (map keyword_of l).
Proof.
  induction l as [| k l IH]; [reflexivity |].
  cbn [map mapM]. rewrite IH.
  assert (Hk : coerce_keyword (keyword_of k) = inr (keyword_of k)).
  { unfold coerce_keyword, keyword_of. cbn -[js_or]. rewrite !js_or_idem. reflexivity. }
  rewrite Hk. reflexivity.
Qed.

(** The coercion is idempotent: run again on an object it produced, it
    returns that object unchanged. *)
Theorem coerce_idempotent :
  forall o o', coerce o = inr (JObj o') -> coerce o' = inr (JObj o').
Proof.
  intros o o' H. pose proof (coerce_inv o _ H) as E. cbv zeta in E.
  injection E as E.
  set (o1 := if truthy (lookup "translation" o) then o
             else obj_set "translation" empty_str o) in E.
  set (o2 := match lookup "keywords" o1 with
             | Some (JArr _) => o1
             | _ => obj_set "keywords" (JArr []) o1
             end) in E.
  set (K := firstn 5 (map keyword_of (keyword_list o))) in E.
  assert (Hk : lookup "keywords" o' = Some (JArr K)).
  { rewrite E, lookup_obj_set. reflexivity. }
  assert (Ht : lookup "translation" o' = lookup "translation" o1).
  { rewrite E, lookup_obj_set. simpl. unfold o2.
    destruct (lookup "keywords" o1) as [[] |]; try reflexivity;
      rewrite lookup_obj_set; reflexivity. }
  assert (Ho1 : (if truthy (lookup "translation" o') then o'
                 else obj_set "translation" empty_str o') = o').
  { destruct (truthy (lookup "translation" o')) eqn:T; [reflexivity |].
    apply obj_set_same. rewrite Ht. unfold o1.
    destruct (truthy (lookup "translation" o)) eqn:T2.
    - rewrite Ht in T. unfold o1 in T. rewrite T2 in T. congruence.
    - rewrite lookup_obj_set. reflexivity. }
  unfold coerce. cbv zeta. rewrite Ho1, Hk. cbv iota. rewrite Hk. cbv iota.
  assert (HK : K = map keyword_of (firstn 5 (keyword_list o))) by (unfold K; apply firstn_map).
  rewrite HK, mapM_keyword_of. unfold bind. cbv beta iota. rewrite <- HK.
  assert (H5 : firstn 5 K = K).
  { unfold K. rewrite firstn_firstn. reflexivity. }
  rewrite H5, obj_set_same by exact Hk. reflexivity.
Qed.

Lemma coerce_idempotent_witness :
  coerce [("keywords", JArr [JObj [("word", JStr "a"); ("phonetic", JStr "p");
            ("roots", empty_str); ("origin", empty_str); ("meaning", empty_str)]]);
          ("translation", empty_str)]
  = inr (JObj [("keywords", JArr [JObj [("word", JStr "a"); ("phonetic", JStr "p");
                 ("roots", empty_str); ("origin", empty_str); ("meaning", empty_str)]]);
               ("translation", empty_str)]).
Proof.
  apply (coerce_idempotent [("keywords", JArr [JObj [("word", JStr "a"); ("roots", JNull);
                                                      ("phonetic", JStr "p")]])]).
  vm_compute. reflexivity.
Defined.

(** The earlier copy of the endpoint knows only [gemini] and [deepseek]:
    any other provider, [openrouter] included, is answered 400 with the
    bare message [Unknown provider] and no outbound call. *)
Theorem legacy_unknown_provider :
  forall net o,
    truthy (lookup "apiKey" o) = true ->
    truthy (lookup "prompt" o) = true ->
    is_provider (lookup "provider" o) "gemini" = false ->
    is_provider (lookup "provider" o) "deepseek" = false ->
    legacy_dispatch net (post (JObj o)) = (inr (message_reply 400 "Unknown provider"), []).
Proof.
  intros net o Ha Hp H1 H2.
  unfold legacy_dispatch, legacy_handler, post. cbn [method body].
  unfold mcatch, legacy_handle_post. cbv zeta. unfold get.
  rewrite Ha, Hp, H1, H2. reflexivity.
Qed.

Lemma legacy_unknown_provider_witness :
  legacy_dispatch (fun _ => None)
    (post (JObj [("provider", JStr "openrouter"); ("apiKey", JStr "k"); ("prompt", JStr "p")]))
  = (inr (message_reply 400 "Unknown provider"), []).
Proof.
  apply (legacy_unknown_provider (fun _ => None)
           [("provider", JStr "openrouter"); ("apiKey", JStr "k"); ("prompt", JStr "p")]);
    reflexivity.
Defined.

Lemma legacy_coerce_keyword_rel :
  forall k, legacy_coerce_keyword k =
    match coerce_keyword k with inl e => inl e | inr y => inr (drop_phonetic y) end.
Proof. intros []; reflexivity. Qed.

Lemma legacy_mapM_rel :
  forall ks, mapM legacy_coerce_keyword ks =
    match mapM coerce_keyword ks with inl e => inl e | inr l => inr (map drop_phonetic l) end.
Proof.
  induction ks as [| k ks IH]; [reflexivity |].
  cbn [mapM]. rewrite legacy_coerce_keyword_rel, IH. unfold bind.
  destruct (coerce_keyword k); [reflexivity |].
  destruct (mapM coerce_keyword ks); reflexivity.
Qed.

Lemma legacy_coerce_rel :
  forall o, legacy_coerce o =
    match coerce o with inl e => inl e | inr r => inr (drop_phonetic_result r) end.
Proof.
  intros o. unfold legacy_coerce, coerce. cbv zeta.
  set (o2 := match lookup "keywords" (if truthy (lookup "translation" o) then o
                                      else obj_set "translation" empty_str o) with
             | Some (JArr _) => _
             | _ => _
             end).
  rewrite legacy_mapM_rel. unfold bind.
  destruct (mapM coerce_keyword _) as [e | l]; [reflexivity |].
  unfold drop_phonetic_result. rewrite !lookup_obj_set, String.eqb_refl.
  rewrite !obj_set_obj_set, firstn_map. reflexivity.
Qed.

(** The normalizer of the earlier copy agrees with the current one on
    every text: the same failures, and on success the same object except
    that its keyword entries have no [phonetic] field. *)
Theorem legacy_normalizer_drops_phonetic :
  forall text,
    legacy_parse_ai_text text =
    match parse_ai_text text with
    | inl e => inl e
    | inr r => inr (drop_phonetic_result r)
    end.
Proof.
  intros text. unfold legacy_parse_ai_text, parse_ai_text.
  destruct (brace_match (clean_text text)) as [c |]; [| reflexivity].
  unfold legacy_parse_candidate, parse_candidate.
  destruct (json_parse c) as [[] |]; try reflexivity.
  rewrite legacy_coerce_rel.
  match goal with |- context [coerce ?o] => destruct (coerce o) end; reflexivity.
Qed.
